(** * wlaunchpad: desktop-entry index, launch-command interpreter and
      single-instance lock, embedded from the Go sources.

    Go strings are byte strings: they are modelled as [string] (a list of
    8-bit [ascii]).  Go [int] values that can be [-1] or can take part in a
    slice bound are modelled in [Z]; a run-time panic (slice bound or index
    out of range) is the [None] of the option monad. *)

From Stdlib Require Import ZArith NArith String Ascii List Bool Lia.
From Stdlib Require Import Sorted Permutation DecimalString.
From Stdlib Require DecimalPos.
From stdpp Require Import base option list gmap strings.

Local Open Scope string_scope.
Local Open Scope Z_scope.

(** ** The Go library functions the program calls *)

Module GoStrings.

(** [len(s)] as a Go [int]. *)
Definition len (s : string) : Z := Z.of_nat (String.length s).

(** [strings.HasPrefix(s, prefix)]. *)
Definition HasPrefix (s pre : string) : bool := String.prefix pre s.

(** [strings.Index(s, substr)]: byte offset of the first occurrence of
    [substr] in [s], or [-1]. *)
Fixpoint index_from (substr s : string) (i : Z) : Z :=
  if String.prefix substr s then i
  else match s with
       | EmptyString => -1
       | String _ s' => index_from substr s' (i + 1)
       end.

Definition Index (s substr : string) : Z := index_from substr s 0.

(** [strings.Contains(s, substr)] is [Index(s, substr) >= 0]. *)
Definition Contains (s substr : string) : bool := 0 <=? Index s substr.

(** [strings.Count(s, substr)] for a non-empty [substr]: the number of
    non-overlapping occurrences.  [skip] counts the bytes of an occurrence
    that was just counted and that are still to be passed over. *)
Fixpoint count_from (substr : string) (skip : nat) (s : string) : Z :=
  match s with
  | EmptyString => 0
  | String _ s' =>
      match skip with
      | S k => count_from substr k s'
      | O => if String.prefix substr s
             then 1 + count_from substr (String.length substr - 1) s'
             else count_from substr 0 s'
      end
  end.

Definition Count (s substr : string) : Z := count_from substr 0 s.

(** [strings.Split(s, sep)] for a non-empty [sep]: the substrings between
    the non-overlapping occurrences of [sep]; never the empty list.  The
    head of the result of [split_from] is the rest of the current piece. *)
Fixpoint split_from (sep : string) (skip : nat) (s : string) : list string :=
  match s with
  | EmptyString => [EmptyString]
  | String c s' =>
      match skip with
      | S k => split_from sep k s'
      | O => if String.prefix sep s
             then EmptyString :: split_from sep (String.length sep - 1) s'
             else match split_from sep 0 s' with
                  | t :: ts => String c t :: ts
                  | [] => [String c EmptyString]
                  end
      end
  end.

Definition Split (s sep : string) : list string := split_from sep 0 s.

(** The slice expression [s[:hi]] on a string; it panics unless
    [0 <= hi <= len(s)]. *)
Definition slice_to (s : string) (hi : Z) : option string :=
  if (0 <=? hi) && (hi <=? len s)
  then Some (String.substring 0 (Z.to_nat hi) s)
  else None.

(** A string from the decimal codes of its bytes. *)
Definition bytes (l : list nat) : string :=
  fold_right (fun n s => String (ascii_of_nat n) s) EmptyString l.

(** The UTF-8 encodings of the runes for which [unicode.IsSpace] holds:
    the six ASCII ones, U+0085, U+00A0, U+1680, U+2000 to U+200A, U+2028,
    U+2029, U+202F, U+205F and U+3000. *)
Definition spaceRunes : list string :=
  map bytes
    [ [9]; [10]; [11]; [12]; [13]; [32]; [194; 133]; [194; 160];
      [225; 154; 128];
      [226; 128; 128]; [226; 128; 129]; [226; 128; 130]; [226; 128; 131];
      [226; 128; 132]; [226; 128; 133]; [226; 128; 134]; [226; 128; 135];
      [226; 128; 136]; [226; 128; 137]; [226; 128; 138];
      [226; 128; 168]; [226; 128; 169]; [226; 128; 175];
      [226; 129; 159]; [227; 128; 128] ]%nat.

Fixpoint dropBytes (n : nat) (s : string) : string :=
  match n, s with
  | S k, String _ s' => dropBytes k s'
  | _, _ => s
  end.

Fixpoint revString (s acc : string) : string :=
  match s with
  | EmptyString => acc
  | String c s' => revString s' (String c acc)
  end.

(** Strip, as long as there is one, a leading piece of [s] that is one of
    [pats]; [fuel] bounds the number of pieces. *)
Fixpoint trimLeftOf (pats : list string) (fuel : nat) (s : string) : string :=
  match fuel with
  | O => s
  | S k =>
      match List.find (fun p => String.prefix p s) pats with
      | Some p => trimLeftOf pats k (dropBytes (String.length p) s)
      | None => s
      end
  end.

(** [strings.TrimSpace(s)]: [s] without its leading and trailing white
    space runes.  Every encoding in [spaceRunes] starts with its only
    non-continuation byte, so a trailing rune is found by matching the
    reversed encodings on the reversed string. *)
Definition TrimSpace (s : string) : string :=
  let s1 := trimLeftOf spaceRunes (String.length s) s in
  revString
    (trimLeftOf (map (fun p => revString p EmptyString) spaceRunes)
       (String.length s1) (revString s1 EmptyString))
    EmptyString.

(** A [strings.NewReplacer] whose old strings are the single bytes [olds]
    and whose new strings are all empty: [Replace] deletes those bytes. *)
Fixpoint deleteBytes (olds : list ascii) (s : string) : string :=
  match s with
  | EmptyString => EmptyString
  | String c s' =>
      if existsb (Ascii.eqb c) olds then deleteBytes olds s'
      else String c (deleteBytes olds s')
  end.

(** [strings.HasSuffix(s, suffix)]:
    [len(s) >= len(suffix) && s[len(s)-len(suffix):] == suffix]. *)
Definition HasSuffix (s suffix : string) : bool :=
  (String.length suffix <=? String.length s)%nat
  && String.eqb
       (String.substring (String.length s - String.length suffix)
          (String.length suffix) s)
       suffix.

(** [strings.Join(elems, sep)]. *)
Fixpoint Join (elems : list string) (sep : string) : string :=
  match elems with
  | [] => EmptyString
  | [e] => e
  | e :: rest => (e ++ sep ++ Join rest sep)%string
  end.

End GoStrings.

Module GoSlice.

(** [len(l)] of a slice. *)
Definition len {A} (l : list A) : Z := Z.of_nat (List.length l).

(** The index expression [l[i]]; it panics unless [0 <= i < len(l)]. *)
Definition at_index {A} (l : list A) (i : Z) : option A :=
  if i <? 0 then None else l !! Z.to_nat i.

(** The slice expression [l[lo:]]; it panics unless [0 <= lo <= len(l)]. *)
Definition slice_from {A} (l : list A) (lo : Z) : option (list A) :=
  if (0 <=? lo) && (lo <=? len l) then Some (drop (Z.to_nat lo) l) else None.

End GoSlice.


(** A Go [error] value; the [nil] error is [None] of [option error]. *)
Inductive error := Err (msg : string).

Module GoStrconv.

(** [strconv.ParseBool(str)]. *)
Definition ParseBool (str : string) : bool * option error :=
  if existsb (String.eqb str) ["1"; "t"; "T"; "TRUE"; "true"; "True"]
  then (true, None)
  else if existsb (String.eqb str) ["0"; "f"; "F"; "FALSE"; "false"; "False"]
  then (false, None)
  else (false, Some (Err "strconv.ParseBool: invalid syntax")).

(** The value of a string of decimal digits, [None] when a byte is not a
    digit. *)
Fixpoint digits (s : string) (n : Z) : option Z :=
  match s with
  | EmptyString => Some n
  | String c s' =>
      let ch := Z.of_nat (nat_of_ascii c) - 48 in
      if (0 <=? ch) && (ch <=? 9) then digits s' (n * 10 + ch) else None
  end.

Definition maxInt : Z := 2 ^ 63 - 1.
Definition minInt : Z := - 2 ^ 63.

(** [strconv.Atoi(s)] with a 64-bit [int]: an optional sign, then one or
    more decimal digits; a value outside the range of [int] is a range
    error with the nearest bound as value, anything else that is not a
    number is a syntax error with value [0]. *)
Definition Atoi (s : string) : Z * option error :=
  let '(neg, body) :=
    match s with
    | String "-" s' => (true, s')
    | String "+" s' => (false, s')
    | _ => (false, s)
    end in
  match body with
  | EmptyString => (0, Some (Err "strconv.Atoi: invalid syntax"))
  | _ =>
      match digits body 0 with
      | None => (0, Some (Err "strconv.Atoi: invalid syntax"))
      | Some un =>
          let n := if neg then - un else un in
          if n <? minInt then (minInt, Some (Err "strconv.Atoi: value out of range"))
          else if maxInt <? n then (maxInt, Some (Err "strconv.Atoi: value out of range"))
          else (n, None)
      end
  end.

End GoStrconv.

Module GoBufio.

(** [bufio.MaxScanTokenSize]: the size the buffer of a [Scanner] may grow
    to. *)
Definition MaxScanTokenSize : N := 65536.

(** The pieces of [data] between line feeds; a last piece without line
    feed counts when it is not empty. *)
Fixpoint rawLines (data : string) : list string :=
  match data with
  | EmptyString => []
  | String c rest =>
      if Ascii.eqb c "010" then EmptyString :: rawLines rest
      else match rawLines rest with
           | l :: ls => String c l :: ls
           | [] => [String c EmptyString]
           end
  end.

(** A line is found while it fits the buffer together with the byte that
    ends it; at a longer one [Scan] fails with [ErrTooLong] and returns
    [false] from then on. *)
Definition fits (line : string) : bool :=
  (N.of_nat (String.length line) <? MaxScanTokenSize)%N.

Fixpoint untilTooLong (lines : list string) : list string :=
  match lines with
  | [] => []
  | l :: ls => if fits l then l :: untilTooLong ls else []
  end.

(** [dropCR]: a line loses one trailing carriage return. *)
Fixpoint dropCR (line : string) : string :=
  match line with
  | EmptyString => EmptyString
  | String c EmptyString => if Ascii.eqb c "013" then EmptyString else line
  | String c rest => String c (dropCR rest)
  end.

(** The values of [scanner.Text()] over the successive [scanner.Scan()]
    that return [true], for a [Scanner] with the [ScanLines] split function
    on a reader that delivers [data]. *)
Definition ScanLines (data : string) : list string :=
  map dropCR (untilTooLong (rawLines data)).

End GoBufio.

Module GoFilepath.

(** Remove the trailing slashes of a reversed path. *)
Fixpoint stripSlashes (rpath : string) : string :=
  match rpath with
  | String "/" rest => stripSlashes rest
  | _ => rpath
  end.

(** The bytes of a reversed path before its first slash, put back in
    order on [acc]. *)
Fixpoint lastElement (rpath acc : string) : string :=
  match rpath with
  | EmptyString => acc
  | String c rest => if Ascii.eqb c "/" then acc else lastElement rest (String c acc)
  end.

(** [filepath.Base(path)] on Unix: the last element of [path] once its
    trailing slashes are removed; ["."] for the empty path and ["/"] for a
    path of slashes only. *)
Definition Base (path : string) : string :=
  match path with
  | EmptyString => "."
  | _ =>
      match lastElement (stripSlashes (GoStrings.revString path EmptyString)) EmptyString with
      | EmptyString => "/"
      | base => base
      end
  end.

(** One path element met by [filepath.Clean]; [stack] holds the elements
    written so far, the last one first.  An empty element and [.] are
    passed over; [..] removes the last element when that is a real one,
    is written when the path is not rooted and nothing can be removed, and
    is dropped at the root; any other element is written. *)
Definition cleanElement (rooted : bool) (stack : list string) (elem : string)
  : list string :=
  if String.eqb elem "" || String.eqb elem "." then stack
  else if String.eqb elem ".." then
    match stack with
    | top :: below => if String.eqb top ".." then ".." :: stack else below
    | [] => if rooted then [] else [".."]
    end
  else elem :: stack.

(** [filepath.Clean(path)] on Unix, element by element: the elements that
    are left, joined by single slashes, after a slash when the path is
    rooted; ["."] when nothing is left of a path that is not rooted. *)
Definition Clean (path : string) : string :=
  match path with
  | EmptyString => "."
  | _ =>
      let rooted := GoStrings.HasPrefix path "/" in
      let stack := fold_left (cleanElement rooted) (GoStrings.Split path "/") [] in
      let body := GoStrings.Join (rev stack) "/" in
      if rooted then ("/" ++ body)%string
      else if String.eqb body "" then "." else body
  end.

(** [filepath.Join(elem...)]: the elements from the first non-empty one on,
    joined by slashes and cleaned; the empty string when all are empty. *)
Fixpoint Join (elem : list string) : string :=
  match elem with
  | [] => EmptyString
  | e :: rest =>
      if String.eqb e "" then Join rest else Clean (GoStrings.Join elem "/")
  end.

End GoFilepath.

(** ** [launch]: the command interpreter and process launcher *)

(** [exec.Cmd] as built by [exec.Command(name, arg...)]: [Path] is [name]
    (its resolution along PATH is left to the operating system), [Args] is
    [name] followed by [arg], and a [nil] [Env] (here [None]) makes the
    child inherit the environment of the launcher. *)
Record Cmd := mkCmd {
  Path : string;
  Args : list string;
  Env : option (list string)
}.

Definition Command (name : string) (arg : list string) : Cmd :=
  {| Path := name; Args := name :: arg; Env := None |}.

(** The arguments that follow the program name. *)
Definition arguments (c : Cmd) : list string := tail (Args c).

(** What [launch] does to the window once the child was started. *)
Inductive UiAction := WinHide | MainQuit.

Section Launch.

(** The flag [-t] ([*term]), the flag [-d] ([*daemon]) and
    [os.Environ()]. *)
Variable term : string.
Variable daemon : bool.
Variable environ : list string.

(** Lines 213-219: trim [%] and everything afterwards. *)
Definition trimPlaceholder (command : string) : option string :=
  if GoStrings.Contains command "%" then
    let cutAt := GoStrings.Index command "%" in
    if negb (cutAt =? -1) then GoStrings.slice_to command (cutAt - 1)
    else Some command
  else Some command.

(** One iteration of the [range elements] loop of lines 230-236; the
    state is [(envVars, cmdIdx)]. *)
Definition scanElement (st : list string * Z) (idx : Z) (item : string)
  : list string * Z :=
  let '(envVars, cmdIdx) := st in
  if GoStrings.Contains item "=" then ((envVars ++ [item])%list, cmdIdx)
  else if negb (GoStrings.HasPrefix item "-") && (cmdIdx =? -1)
       then (envVars, idx)
       else (envVars, cmdIdx).

Fixpoint scanElements (elements : list string) (idx : Z)
  (st : list string * Z) : list string * Z :=
  match elements with
  | [] => st
  | item :: rest => scanElements rest (idx + 1) (scanElement st idx item)
  end.

(** Lines 221-263, on the command left by the truncation.  The result is
    the command that is started and the action on the window.  (The logged
    message reads [elements[cmdIdx]] and [elements[1+cmdIdx:]] a second
    time, and the error of [cmd.Start()] is dropped.) *)
Definition launchElements (command : string) (terminal : bool)
  : option (Cmd * UiAction) :=
  let elements := GoStrings.Split command " " in
  let envVarsNum := GoStrings.Count command "=" in
  let '(envVars, cmdIdx) :=
    if 0 <? envVarsNum then scanElements elements 0 ([], -1)
    else ([], -1) in
  let cmdIdx := if cmdIdx =? -1 then 0 else cmdIdx in
  name ← GoSlice.at_index elements cmdIdx;
  arg ← GoSlice.slice_from elements (1 + cmdIdx);
  let cmd := Command name arg in
  cmd ← (if terminal
         then name ← GoSlice.at_index elements cmdIdx;
              Some (Command term [name])
         else Some cmd);
  let cmd :=
    if 0 <? GoSlice.len envVars
    then {| Path := Path cmd; Args := Args cmd;
            Env := Some (environ ++ envVars)%list |}
    else cmd in
  Some (cmd, if daemon then WinHide else MainQuit).

Definition launch (command : string) (terminal : bool)
  : option (Cmd * UiAction) :=
  command ← trimPlaceholder command;
  launchElements command terminal.

End Launch.


(** ** The desktop entries *)

Record desktopEntry := mkEntry {
  DesktopID : string;
  Name : string;
  NameLoc : string;
  Comment : string;
  CommentLoc : string;
  Icon : string;
  Exec : string;
  Category : string;
  Terminal : bool;
  NoDisplay : bool
}.

(** The zero value of the struct. *)
Definition zeroEntry : desktopEntry :=
  mkEntry "" "" "" "" "" "" "" "" false false.

Definition setDesktopID v e :=
  mkEntry v (Name e) (NameLoc e) (Comment e) (CommentLoc e) (Icon e) (Exec e)
    (Category e) (Terminal e) (NoDisplay e).
Definition setName v e :=
  mkEntry (DesktopID e) v (NameLoc e) (Comment e) (CommentLoc e) (Icon e)
    (Exec e) (Category e) (Terminal e) (NoDisplay e).
Definition setNameLoc v e :=
  mkEntry (DesktopID e) (Name e) v (Comment e) (CommentLoc e) (Icon e) (Exec e)
    (Category e) (Terminal e) (NoDisplay e).
Definition setComment v e :=
  mkEntry (DesktopID e) (Name e) (NameLoc e) v (CommentLoc e) (Icon e) (Exec e)
    (Category e) (Terminal e) (NoDisplay e).
Definition setCommentLoc v e :=
  mkEntry (DesktopID e) (Name e) (NameLoc e) (Comment e) v (Icon e) (Exec e)
    (Category e) (Terminal e) (NoDisplay e).
Definition setIcon v e :=
  mkEntry (DesktopID e) (Name e) (NameLoc e) (Comment e) (CommentLoc e) v
    (Exec e) (Category e) (Terminal e) (NoDisplay e).
Definition setExec v e :=
  mkEntry (DesktopID e) (Name e) (NameLoc e) (Comment e) (CommentLoc e)
    (Icon e) v (Category e) (Terminal e) (NoDisplay e).
Definition setCategory v e :=
  mkEntry (DesktopID e) (Name e) (NameLoc e) (Comment e) (CommentLoc e)
    (Icon e) (Exec e) v (Terminal e) (NoDisplay e).
Definition setTerminal v e :=
  mkEntry (DesktopID e) (Name e) (NameLoc e) (Comment e) (CommentLoc e)
    (Icon e) (Exec e) (Category e) v (NoDisplay e).
Definition setNoDisplay v e :=
  mkEntry (DesktopID e) (Name e) (NameLoc e) (Comment e) (CommentLoc e)
    (Icon e) (Exec e) (Category e) (Terminal e) v.

(** [parseKeypair]: the text before and after the first [=], trimmed; the
    whole line and an empty value when there is no [=] after the first
    byte.  Both slices [s[:idx]] and [s[idx+1:]] are within [s], [idx] being
    the offset of one of its bytes. *)
Definition parseKeypair (s : string) : string * string :=
  let idx := GoStrings.Index s "=" in
  if 0 <? idx then
    (GoStrings.TrimSpace (String.substring 0 (Z.to_nat idx) s),
     GoStrings.TrimSpace
       (String.substring (Z.to_nat (idx + 1))
          (String.length s - Z.to_nat (idx + 1)) s))
  else (s, "").

(** [cleanexec]: the [strings.NewReplacer] that replaces the double quote
    (byte 34) and the single quote (byte 39) by the empty string. *)
Definition cleanexec (value : string) : string :=
  GoStrings.deleteBytes ["034"%char; "039"%char] value.

Section EntryParser.

(** [os.Getenv("LANG")]. *)
Variable LANG : string.

Definition lang : string := hd "" (GoStrings.Split LANG ".").
Definition localizedName : string :=
  "Name[" ++ hd "" (GoStrings.Split lang "_") ++ "]".
Definition localizedComment : string :=
  "Comment[" ++ hd "" (GoStrings.Split lang "_") ++ "]".

(** The [switch name] of lines 332-351; the cases are tried in order. *)
Definition setKey (name value : string) (entry : desktopEntry) : desktopEntry :=
  if String.eqb name "Name" then setName value entry
  else if String.eqb name localizedName then setNameLoc value entry
  else if String.eqb name "Comment" then setComment value entry
  else if String.eqb name localizedComment then setCommentLoc value entry
  else if String.eqb name "Icon" then setIcon value entry
  else if String.eqb name "Categories" then setCategory value entry
  else if String.eqb name "Terminal"
       then setTerminal (fst (GoStrconv.ParseBool value)) entry
  else if String.eqb name "NoDisplay"
       then setNoDisplay (fst (GoStrconv.ParseBool value)) entry
  else if String.eqb name "Exec" then setExec (cleanexec value) entry
  else entry.

(** Does the loop [break] at line [l]? *)
Definition otherSection (l : string) : bool :=
  GoStrings.HasPrefix l "[" && negb (String.eqb l "[Desktop Entry]").

(** The body of the loop below the [break] test, lines 327-351. *)
Definition scanLine (l : string) (entry : desktopEntry) : desktopEntry :=
  let '(name, value) := parseKeypair l in
  if String.eqb value "" then entry else setKey name value entry.

(** The loop [for scanner.Scan()] of lines 321-352. *)
Fixpoint scanEntry (lines : list string) (entry : desktopEntry) : desktopEntry :=
  match lines with
  | [] => entry
  | l :: rest =>
      if otherSection l then entry else scanEntry rest (scanLine l entry)
  end.

(** Lines 354-360: the localized fields default to the plain ones. *)
Definition fillLocalized (entry : desktopEntry) : desktopEntry :=
  let entry :=
    if String.eqb (NameLoc entry) "" then setNameLoc (Name entry) entry
    else entry in
  if String.eqb (CommentLoc entry) "" then setCommentLoc (Comment entry) entry
  else entry.

(** [parseDesktopEntry(id, in)], with [data] the bytes that [in] delivers.
    The named result [err] is returned as it was declared. *)
Definition parseDesktopEntry (id : string) (data : string)
  : desktopEntry * option error :=
  let err : option error := None in
  let entry := setDesktopID id zeroEntry in
  let entry := scanEntry (GoBufio.ScanLines data) entry in
  (fillLocalized entry, err).

(** [parseDesktopEntryFile(id, path)].  The file system [fs] holds the
    files that [os.Open] opens, with the bytes they deliver; a path that
    is not in the map is one that [os.Open] fails on. *)
Definition parseDesktopEntryFile (fs : gmap string string) (id path : string)
  : desktopEntry * option error :=
  match fs !! path with
  | None => (zeroEntry, Some (Err ("open " ++ path)))
  | Some data => parseDesktopEntry id data
  end.

End EntryParser.

(** ** The index of desktop entries *)

(** [strconv.Itoa], as [fmt.Sprintf] prints an [int] under [%v]. *)
Definition Itoa (n : Z) : string := NilZero.string_of_int (Z.to_int n).

(** The variables of the loop of [parseDesktopFiles]. *)
Record scanState := mkScan {
  entries : list desktopEntry;
  id2entry : gmap string desktopEntry;
  skipped : Z;
  hidden : Z
}.

(** What [parseDesktopFiles] leaves behind: the global [desktopEntries],
    the summary it returns, and the three counts it logs. *)
Record refreshed := mkRefreshed {
  desktopEntries : list desktopEntry;
  summary : string;
  logFound : Z;
  logSkipped : Z;
  logHidden : Z
}.

(** The [less] function given to [sort.Slice]: byte-wise [<] on [NameLoc]. *)
Definition lessNameLoc (a b : desktopEntry) : bool :=
  String.ltb (NameLoc a) (NameLoc b).

Section EntryIndex.

Variable LANG : string.

(** [sort.Slice(x, less)]: some sort, not necessarily a stable one. *)
Variable sortSlice :
  list desktopEntry -> (desktopEntry -> desktopEntry -> bool) -> list desktopEntry.

(** [strings.ToLower], with the case tables of the Go library. *)
Variable ToLower : string -> string.

(** The files that [os.Open] opens, with the bytes they deliver. *)
Variable fs : gmap string string.

(** The body of the loop over [desktopFiles], lines 174-192. *)
Definition scanFile (st : scanState) (file : string) : scanState :=
  let id := GoFilepath.Base file in
  match id2entry st !! id with
  | Some _ => mkScan (entries st) (id2entry st) (skipped st + 1) (hidden st)
  | None =>
      let '(entry, err) := parseDesktopEntryFile LANG fs id file in
      match err with
      | Some _ => st
      | None =>
          let hidden := if NoDisplay entry then hidden st + 1 else hidden st in
          mkScan (entries st ++ [entry])%list
                 (<[DesktopID entry := entry]> (id2entry st))
                 (skipped st) hidden
      end
  end.

Definition scanFiles (desktopFiles : list string) : scanState :=
  fold_left scanFile desktopFiles (mkScan [] ∅ 0 0).

(** [parseDesktopFiles()], with [desktopFiles] the paths that
    [listDesktopFiles()] returns, in the order of the directories. *)
Definition parseDesktopFiles (desktopFiles : list string) : refreshed :=
  let st := scanFiles desktopFiles in
  let sorted := sortSlice (entries st) lessNameLoc in
  mkRefreshed sorted
    (Itoa (GoSlice.len sorted - hidden st) ++ " entries (+"
       ++ Itoa (hidden st) ++ " hidden)")
    (GoSlice.len sorted) (skipped st) (hidden st).

(** The test of lines 83-86: does the loop go on to the button of
    [entry]? *)
Definition matchesPhrase (searchPhrase : string) (entry : desktopEntry) : bool :=
  String.eqb searchPhrase ""
  || negb (NoDisplay entry)
     && (GoStrings.Contains (ToLower (NameLoc entry)) (ToLower searchPhrase)
         || GoStrings.Contains (ToLower (CommentLoc entry)) (ToLower searchPhrase)
         || GoStrings.Contains (ToLower (Comment entry)) (ToLower searchPhrase)
         || GoStrings.Contains (ToLower (Exec entry)) (ToLower searchPhrase)).

(** The loop of [setUpAppsFlowBox(searchPhrase)], lines 82-142: the
    entries a button is added for, in the order of the buttons.  (How a
    button is drawn is left to the toolkit.) *)
Fixpoint setUpAppsFlowBox (entries : list desktopEntry) (searchPhrase : string)
  : list desktopEntry :=
  match entries with
  | [] => []
  | entry :: rest =>
      if negb (matchesPhrase searchPhrase entry)
      then setUpAppsFlowBox rest searchPhrase
      else if negb (NoDisplay entry)
           then entry :: setUpAppsFlowBox rest searchPhrase
           else setUpAppsFlowBox rest searchPhrase
  end.

End EntryIndex.

(** Insertion sort, one function that meets what [sort.Slice] promises. *)
Fixpoint insertBy (less : desktopEntry -> desktopEntry -> bool)
  (x : desktopEntry) (l : list desktopEntry) : list desktopEntry :=
  match l with
  | [] => [x]
  | y :: l' => if less x y then x :: l else y :: insertBy less x l'
  end.

Definition insertionSort (l : list desktopEntry)
  (less : desktopEntry -> desktopEntry -> bool) : list desktopEntry :=
  fold_right (insertBy less) [] l.

(** Lower-casing of the ASCII letters, as [strings.ToLower] does it on a
    string of ASCII bytes. *)
Definition lowerByte (c : ascii) : ascii :=
  let n := nat_of_ascii c in
  if (65 <=? n)%nat && (n <=? 90)%nat then ascii_of_nat (n + 32) else c.

Fixpoint asciiToLower (s : string) : string :=
  match s with
  | EmptyString => EmptyString
  | String c s' => String (lowerByte c) (asciiToLower s')
  end.

(** ** The lock file and the second instance *)

Inductive Signal := SIGTERM | SIGUSR1.

(** The calls with an effect outside the process. *)
Inductive SysCall := Kill (pid : Z) (sig : Signal).

(** How the start of [main] ends: [os.Exit(code)], or the process goes on
    as the owner of the lock. *)
Inductive Outcome := Exit (code : Z) | Owner.

(** What the operating system answers to the calls of [createLockFile],
    [getLockFilePid] and [main]. *)
Record LockOS := mkLockOS {
  openFile : option error;
  flock : option error;
  truncate : option error;
  writeString : option error;
  readFile : string + error;
  kill : Z -> Signal -> option error
}.

(** [createLockFile(filename)]: its error. *)
Definition createLockFile (os : LockOS) : option error :=
  match openFile os with
  | Some err => Some err
  | None =>
      match flock os with
      | Some err => Some err
      | None =>
          match truncate os with
          | Some err => Some err
          | None =>
              match writeString os with
              | Some err => Some err
              | None => None
              end
          end
      end
  end.

(** [getLockFilePid(filename)]. *)
Definition getLockFilePid (os : LockOS) : Z * option error :=
  match readFile os with
  | inr err => (0, Some err)
  | inl contents => GoStrconv.Atoi contents
  end.

(** Lines 218-227 of [main]: the system calls made and the outcome. *)
Definition acquireOrRelay (os : LockOS) : list SysCall * Outcome :=
  match createLockFile os with
  | Some _ =>
      let '(pid, err) := getLockFilePid os in
      match err with
      | None =>
          let _ := kill os pid SIGUSR1 in
          ([Kill pid SIGUSR1], Exit 0)
      | Some _ => ([], Exit 0)
      end
  | None => ([], Owner)
  end.

(** ** Auxiliary definitions used to state the properties *)

(** The library functions above at a one-byte [substr] or [sep], by plain
    recursion on the string. *)
Fixpoint indexByte (c : ascii) (s : string) : option nat :=
  match s with
  | EmptyString => None
  | String a s' =>
      if Ascii.eqb c a then Some O else option_map S (indexByte c s')
  end.

Fixpoint splitByte (c : ascii) (s : string) : list string :=
  match s with
  | EmptyString => [EmptyString]
  | String a s' =>
      if Ascii.eqb c a then EmptyString :: splitByte c s'
      else match splitByte c s' with
           | t :: ts => String a t :: ts
           | [] => [String a EmptyString]
           end
  end.

Fixpoint countByte (c : ascii) (s : string) : nat :=
  match s with
  | EmptyString => O
  | String a s' => if Ascii.eqb c a then S (countByte c s') else countByte c s'
  end.

(** A token that is collected as an environment override. *)
Definition isAssignment (item : string) : bool := GoStrings.Contains item "=".

(** A token that can be the executable: no [=] in it and no leading [-]. *)
Definition isExecutable (item : string) : bool :=
  negb (GoStrings.Contains item "=") && negb (GoStrings.HasPrefix item "-").

(** The index of the first element of [l] that satisfies [p]. *)
Fixpoint firstIndex {A} (p : A -> bool) (l : list A) : option nat :=
  match l with
  | [] => None
  | x :: l' => if p x then Some O else option_map S (firstIndex p l')
  end.

(** The longest prefix of [l] whose elements all satisfy [p]. *)
Fixpoint takeWhile {A} (p : A -> bool) (l : list A) : list A :=
  match l with
  | [] => []
  | x :: l' => if p x then x :: takeWhile p l' else []
  end.

(** The reading of the specification for the truncation: of the tokens of
    the template, those before the first token that holds a [%]. *)
Definition specTokensBeforePlaceholder (command : string) : list string :=
  takeWhile (fun t => negb (GoStrings.Contains t "%")) (GoStrings.Split command " ").

(** The reading of the specification for the argument list: the tokens of
    the split from index 1 on. *)
Definition specArgumentsFromIndex1 (command : string) : list string :=
  drop 1 (GoStrings.Split command " ").

Fixpoint hasByte (c : ascii) (s : string) : bool :=
  match s with
  | EmptyString => false
  | String a s' => Ascii.eqb c a || hasByte c s'
  end.

(** The index of the executable token among the tokens of the command
    that the truncation left, as the loop of lines 229-240 finds it. *)
Definition executableIndex (command : string) : nat :=
  if GoStrings.Contains command "="
  then default 0%nat (firstIndex isExecutable (GoStrings.Split command " "))
  else 0%nat.

(** The environment overrides: the tokens that hold a [=]. *)
Definition envOverrides (command : string) : list string :=
  List.filter isAssignment (GoStrings.Split command " ").

(** The line feed, the double quote and the single quote. *)
Definition LF : ascii := "010"%char.
Definition dquote : ascii := "034"%char.
Definition squote : ascii := "039"%char.

(** The text whose lines are [lines], each ended by a line feed. *)
Fixpoint unlines (lines : list string) : string :=
  match lines with
  | [] => EmptyString
  | l :: rest => (l ++ String LF (unlines rest))%string
  end.

(** The keys that the [switch] of [parseDesktopEntry] has a case for. *)
Definition knownKeys (LANG : string) : list string :=
  ["Name"; localizedName LANG; "Comment"; localizedComment LANG; "Icon";
   "Categories"; "Terminal"; "NoDisplay"; "Exec"].

(** The stream of the example of the specification: the line [Name=Foo],
    then the line [Exec=], [cmd] between double quotes, a space and
    [--flag]; each ended by a line feed. *)
Definition exampleStream : string :=
  unlines ["Name=Foo";
           ("Exec=" ++ String dquote ("cmd" ++ String dquote " --flag"))%string].


(** Ascending order of the localized names, bytes compared as numbers. *)
Definition leNameLoc (a b : desktopEntry) : Prop :=
  String.leb (NameLoc a) (NameLoc b) = true.

(** The entries that are not hidden. *)
Definition visible (entry : desktopEntry) : bool := negb (NoDisplay entry).

(** The loop of [parseDesktopFiles] from any state of its variables. *)
Definition scanFrom (LANG : string) (fs : gmap string string)
  (st : scanState) (desktopFiles : list string) : scanState :=
  fold_left (scanFile LANG fs) desktopFiles st.

(** One more skipped duplicate. *)
Definition countSkipped (st : scanState) : scanState :=
  mkScan (entries st) (id2entry st) (skipped st + 1) (hidden st).

(** The identities of the entries. *)
Definition ids (l : list desktopEntry) : list string := map DesktopID l.

(** The map [id2entry] holds exactly the identities of [entries], and no
    identity is there twice. *)
Definition scanInv (st : scanState) : Prop :=
  (forall id, is_Some (id2entry st !! id) <-> In id (ids (entries st)))
  /\ NoDup (ids (entries st)).

(** A small file system and the listing of its desktop files, the home
    directory first: two files share the base name [vim.desktop], one entry
    is hidden. *)
Definition exampleFs : gmap string string :=
  <["/home/u/.local/share/applications/vim.desktop" :=
      unlines ["[Desktop Entry]"; "Name=Vim"; "Exec=vim %F"; "Terminal=true"]]>
  (<["/usr/share/applications/vim.desktop" :=
      unlines ["[Desktop Entry]"; "Name=Vi IMproved"; "Exec=vim"]]>
  (<["/usr/share/applications/foot.desktop" :=
      unlines ["[Desktop Entry]"; "Name=Foot"; "Exec=foot"]]>
  (<["/usr/share/applications/cups.desktop" :=
      unlines ["[Desktop Entry]"; "Name=Printing"; "NoDisplay=true"]]> ∅))).

Definition exampleFiles : list string :=
  ["/home/u/.local/share/applications/vim.desktop";
   "/usr/share/applications/cups.desktop";
   "/usr/share/applications/foot.desktop";
   "/usr/share/applications/vim.desktop"].

(** ** Environment, directories and the listing of desktop files *)

(** [os.Getenv(key)] in the environment [env]: the empty string for a
    variable that is not set. *)
Definition Getenv (env : gmap string string) (key : string) : string :=
  default "" (env !! key).

(** [defaultStringIfBlank(s, fallback)]. *)
Definition defaultStringIfBlank (s fallback : string) : string :=
  let s := GoStrings.TrimSpace s in
  if String.eqb s "" || String.eqb s "linux" then fallback else s.

(** The default of the flag [-t], line 183. *)
Definition defaultTerm (env : gmap string string) : string :=
  defaultStringIfBlank (Getenv env "TERM") "foot".

(** [tempDir()]. *)
Definition tempDir (env : gmap string string) : string :=
  if negb (String.eqb (Getenv env "TMPDIR") "") then Getenv env "TMPDIR"
  else if negb (String.eqb (Getenv env "TEMP") "") then Getenv env "TEMP"
  else if negb (String.eqb (Getenv env "TMP") "") then Getenv env "TMP"
  else "/tmp".

(** [lockFilePath] of [main], line 218. *)
Definition lockFilePath (env : gmap string string) : string :=
  GoFilepath.Join [tempDir env; "wlaunchpad.lock"].



(** The test of line 158 on the name of a file: is the piece after its
    last dot [desktop]? *)
Definition isDesktopFile (name : string) : bool :=
  let parts := GoStrings.Split name "." in
  String.eqb (List.last parts "") "desktop".

(** The inner loop of [listDesktopFiles], lines 156-161, over the names of
    the files of [dir]. *)
Fixpoint listDir (dir : string) (names : list string) (paths : list string)
  : list string :=
  match names with
  | [] => paths
  | name :: rest =>
      if isDesktopFile name
      then listDir dir rest (paths ++ [GoFilepath.Join [dir; name]])%list
      else listDir dir rest paths
  end.

(** [listDesktopFiles()] over the directories [appDirs]; [readDir dir] is
    what [listFiles(dir)] returns: the names of the files of [dir], or
    [None] for an error. *)
Fixpoint listDirs (readDir : string -> option (list string))
  (appDirs : list string) (paths : list string) : list string :=
  match appDirs with
  | [] => paths
  | dir :: rest =>
      match readDir dir with
      | Some names => listDirs readDir rest (listDir dir names paths)
      | None => listDirs readDir rest paths
      end
  end.

Definition listDesktopFiles (readDir : string -> option (list string))
  (appDirs : list string) : list string :=
  listDirs readDir appDirs [].

(** ** Icons *)

Section Icons.

(** The pixbufs, and what [gdk.PixbufNewFromFileAtSize] and
    [iconTheme.LoadIcon] answer for a name at the icon size in use; the
    theme answers the second lookup of a name as it answered the first. *)
Variable Pixbuf : Type.
Variable PixbufNewFromFileAtSize : string -> Pixbuf + error.
Variable LoadIcon : string -> Pixbuf + error.

(** Lines 77-80: the name that is looked up in the icon theme. *)
Definition themeIconName (icon : string) : string :=
  if GoStrings.HasSuffix icon ".svg" || GoStrings.HasSuffix icon ".png"
     || GoStrings.HasSuffix icon ".xpm"
  then hd "" (GoStrings.Split icon ".")
  else icon.

(** [createPixbuf(icon, size)]; a [nil] pixbuf is [None]. *)
Definition createPixbuf (icon : string) : option Pixbuf * option error :=
  if GoStrings.Contains icon "/" then
    match PixbufNewFromFileAtSize icon with
    | inr err => (None, Some err)
    | inl pixbuf => (Some pixbuf, None)
    end
  else
    let icon := themeIconName icon in
    match LoadIcon icon with
    | inr _ =>
        if GoStrings.HasPrefix icon "/" then
          match PixbufNewFromFileAtSize icon with
          | inr err => (None, Some err)
          | inl pixbuf => (Some pixbuf, None)
          end
        else
          match LoadIcon icon with
          | inr err => (None, Some err)
          | inl pixbuf => (Some pixbuf, None)
          end
    | inl pixbuf => (Some pixbuf, None)
    end.

(** Lines 93-108 of [setUpAppsFlowBox]: the pixbuf of a button and the
    icon cache afterwards. *)
Definition buttonPixbuf (iconCache : gmap string (option Pixbuf)) (icon : string)
  : option Pixbuf * gmap string (option Pixbuf) :=
  match iconCache !! icon with
  | Some pixbuf => (pixbuf, iconCache)
  | None =>
      let '(pixbuf, err) :=
        if negb (String.eqb icon "") then
          let '(pixbuf, err) := createPixbuf icon in
          match err with
          | Some _ => createPixbuf "image-missing"
          | None => (pixbuf, err)
          end
        else (None, None) in
      let pixbuf :=
        match err with
        | Some _ => fst (createPixbuf "unknown")
        | None => pixbuf
        end in
      (pixbuf, <[icon := pixbuf]> iconCache)
  end.

End Icons.

(** ** The owner of the lock *)

(** Line 56 of [createLockFile]: what the owner writes to the lock file. *)
Definition lockFileContents (pid : Z) : string := Itoa pid.

(** What the second instance is answered when the process [pid] owns the
    lock: the lock is refused, the file is read. *)
Definition heldBy (pid : Z) (k : Z -> Signal -> option error) : LockOS :=
  mkLockOS None (Some (Err "resource temporarily unavailable")) None None
    (inl (lockFileContents pid)) k.

(** ** The signals of the owner *)

(** What the handler of lines 197-215 does on a signal. *)
Inductive Reaction := Quit | HideWindow | ShowWindow.

Definition onSignal (daemon visible : bool) (s : Signal) : Reaction :=
  match s with
  | SIGTERM => Quit
  | SIGUSR1 =>
      if negb daemon then Quit
      else if visible then HideWindow else ShowWindow
  end.

(** The carriage return. *)
Definition CR : ascii := "013"%char.

(** A line with a carriage return after it, as a text with DOS line ends
    has it before each line feed. *)
Definition withCR (l : string) : string := (l ++ String CR EmptyString)%string.

(** A string of [n] bytes [c]. *)
Fixpoint replicateByte (n : nat) (c : ascii) : string :=
  match n with
  | O => EmptyString
  | S k => String c (replicateByte k c)
  end.

(** The paths of one directory, as [listDesktopFiles] appends them. *)
Definition pathsOf (readDir : string -> option (list string)) (dir : string)
  : list string :=
  match readDir dir with
  | Some names =>
      map (fun name => GoFilepath.Join [dir; name]) (List.filter isDesktopFile names)
  | None => []
  end.

(** A directory table for the examples: the applications of a user and of
    the system. *)
Definition exampleReadDir (dir : string) : option (list string) :=
  if String.eqb dir "/home/u/.local/share/applications"
  then Some ["README"; "vim.desktop"]
  else if String.eqb dir "/usr/share/applications"
  then Some ["cups.desktop"; "desktop"; "foot.desktop"; "mimeinfo.cache"; "vim.desktop"]
  else None.



(** Loaders for the examples, with the name of what was loaded as pixbuf:
    a theme that has the icons [vim] and [unknown], and one image file. *)
Definition exampleTheme (name : string) : string + error :=
  if String.eqb name "vim" || String.eqb name "unknown"
  then inl ("theme:" ++ name)%string
  else inr (Err "Icon not present in theme").

Definition exampleImages (path : string) : string + error :=
  if String.eqb path "/usr/share/pixmaps/foot.png"
  then inl ("file:" ++ path)%string
  else inr (Err "Failed to open file").

(** * Properties *)

(** ** The model on concrete inputs *)

Example Atoi_examples :
  map GoStrconv.Atoi ["4711"; "-5"; "+12"; ""; "12 "; "-"; "9223372036854775808"]
  = [(4711, None); (-5, None); (12, None);
     (0, Some (Err "strconv.Atoi: invalid syntax"));
     (0, Some (Err "strconv.Atoi: invalid syntax"));
     (0, Some (Err "strconv.Atoi: invalid syntax"));
     (GoStrconv.maxInt, Some (Err "strconv.Atoi: value out of range"))].
Proof. vm_compute. reflexivity. Qed.

(** Tab, no-break space and thin space are trimmed, the inner space stays. *)
Example TrimSpace_examples :
  GoStrings.TrimSpace
    (GoStrings.bytes [32; 9; 194; 160; 97; 32; 98; 226; 128; 137; 13]%nat)
  = "a b".
Proof. vm_compute. reflexivity. Qed.

(** Two lines with carriage return and line feed, an empty line, and a last
    line without line feed whose inner carriage return stays. *)
Example ScanLines_examples :
  GoBufio.ScanLines (GoStrings.bytes [97; 13; 10; 10; 98; 13; 99]%nat)
  = ["a"; ""; GoStrings.bytes [98; 13; 99]%nat].
Proof. vm_compute. reflexivity. Qed.

Example Base_examples :
  map GoFilepath.Base
    ["/usr/share/applications/a.desktop"; "a.desktop"; "/x/y//"; "///"; ""]
  = ["a.desktop"; "a.desktop"; "y"; "/"; "."].
Proof. vm_compute. reflexivity. Qed.

Example parseDesktopEntry_example :
  parseDesktopEntry "en_US.UTF-8" "a.desktop"
    (unlines ["[Desktop Entry]"; " Name = Foo "; "Name[en]=Bar"; "Terminal=true";
              "[Desktop Action x]"; "Name=Baz"])
  = (mkEntry "a.desktop" "Foo" "Bar" "" "" "" "" "" true false, None).
Proof. vm_compute. reflexivity. Qed.

Example launch_example :
  launch "foot" false [] "FOO=bar cmd arg1" false
  = Some ({| Path := "cmd"; Args := ["cmd"; "arg1"];
             Env := Some ["FOO=bar"] |}, MainQuit).
Proof. vm_compute. reflexivity. Qed.

(** ** The library functions at a one-byte argument *)

(** Decide a comparison on [Z] that [lia] settles. *)
Ltac Ztrue t :=
  replace t with true
    by (symmetry; first [apply Z.leb_le | apply Z.ltb_lt | apply Z.eqb_eq]; lia).
Ltac Zfalse t :=
  replace t with false
    by (symmetry; first [apply Z.leb_gt | apply Z.ltb_ge | apply Z.eqb_neq]; lia).

Lemma prefix_byte c s :
  String.prefix (String c EmptyString) s
  = match s with String a _ => Ascii.eqb c a | EmptyString => false end.
Proof.
  destruct s as [|a s]; simpl; [reflexivity|].
  destruct (ascii_dec c a) as [->|Hne].
  - rewrite Ascii.eqb_refl. destruct s; reflexivity.
  - symmetry. apply Ascii.eqb_neq. exact Hne.
Qed.

Lemma index_from_byte c s i :
  GoStrings.index_from (String c EmptyString) s i
  = match indexByte c s with Some n => i + Z.of_nat n | None => -1 end.
Proof.
  revert i. induction s as [|a s IH]; intros i.
  - reflexivity.
  - cbn [GoStrings.index_from indexByte]. rewrite prefix_byte.
    destruct (Ascii.eqb c a).
    + simpl. lia.
    + rewrite IH. destruct (indexByte c s); simpl; [lia|reflexivity].
Qed.

Lemma Index_byte c s :
  GoStrings.Index s (String c EmptyString)
  = match indexByte c s with Some n => Z.of_nat n | None => -1 end.
Proof.
  unfold GoStrings.Index. rewrite index_from_byte.
  destruct (indexByte c s); reflexivity.
Qed.

Lemma Contains_byte c s :
  GoStrings.Contains s (String c EmptyString)
  = match indexByte c s with Some _ => true | None => false end.
Proof.
  unfold GoStrings.Contains. rewrite Index_byte.
  destruct (indexByte c s) as [n|]; [apply Z.leb_le; lia|reflexivity].
Qed.

Lemma Split_byte c s : GoStrings.Split s (String c EmptyString) = splitByte c s.
Proof.
  unfold GoStrings.Split. induction s as [|a s IH]; [reflexivity|].
  cbn [GoStrings.split_from splitByte]. rewrite prefix_byte.
  destruct (Ascii.eqb c a); simpl; rewrite IH; reflexivity.
Qed.

Lemma Count_byte c s :
  GoStrings.Count s (String c EmptyString) = Z.of_nat (countByte c s).
Proof.
  unfold GoStrings.Count. induction s as [|a s IH]; [reflexivity|].
  cbn [GoStrings.count_from countByte]. rewrite prefix_byte.
  destruct (Ascii.eqb c a); cbn [String.length Nat.sub]; rewrite IH; lia.
Qed.

Lemma countByte_pos c s : (0 < countByte c s)%nat <-> is_Some (indexByte c s).
Proof.
  induction s as [|a s IH]; simpl.
  - split; [lia|intros [? ?]; discriminate].
  - destruct (Ascii.eqb c a).
    + split; [eauto|lia].
    + rewrite IH. destruct (indexByte c s); simpl; split; eauto;
        intros [? ?]; discriminate.
Qed.

Lemma splitByte_nonempty c s : splitByte c s <> [].
Proof.
  destruct s as [|a s]; simpl; [discriminate|].
  destruct (Ascii.eqb c a); [discriminate|].
  destruct (splitByte c s); discriminate.
Qed.

Lemma Split_nonempty s sep : GoStrings.Split s sep <> [].
Proof.
  unfold GoStrings.Split. generalize 0%nat as skip.
  induction s as [|a s IH]; intros skip; cbn [GoStrings.split_from];
    [discriminate|].
  destruct skip; [|apply IH].
  destruct (String.prefix sep (String a s)); [discriminate|].
  destruct (GoStrings.split_from sep 0 s); discriminate.
Qed.

Lemma hasByte_indexByte c s :
  hasByte c s = match indexByte c s with Some _ => true | None => false end.
Proof.
  induction s as [|a s IH]; simpl; [reflexivity|].
  destruct (Ascii.eqb c a); simpl; [reflexivity|].
  rewrite IH. destruct (indexByte c s); reflexivity.
Qed.

Lemma Contains_hasByte c s :
  GoStrings.Contains s (String c EmptyString) = hasByte c s.
Proof. rewrite Contains_byte, hasByte_indexByte. reflexivity. Qed.

Lemma hasByte_false_indexByte c s : hasByte c s = false -> indexByte c s = None.
Proof.
  rewrite hasByte_indexByte. destruct (indexByte c s); [discriminate|reflexivity].
Qed.

Lemma hasByte_true_indexByte c s :
  hasByte c s = true -> exists n, indexByte c s = Some n.
Proof.
  rewrite hasByte_indexByte. destruct (indexByte c s); [eauto|discriminate].
Qed.

Lemma indexByte_lt c s n : indexByte c s = Some n -> (n < String.length s)%nat.
Proof.
  revert n. induction s as [|a s IH]; intros n; simpl; [discriminate|].
  destruct (Ascii.eqb c a).
  - intros [= <-]. lia.
  - destruct (indexByte c s) as [m|]; simpl; [|discriminate].
    intros [= <-]. specialize (IH m eq_refl). lia.
Qed.

Lemma Count_pos_Contains c s :
  (0 <? GoStrings.Count s (String c EmptyString))
  = GoStrings.Contains s (String c EmptyString).
Proof.
  rewrite Count_byte, Contains_byte.
  pose proof (countByte_pos c s) as H.
  destruct (indexByte c s) as [n|].
  - apply Z.ltb_lt. assert (0 < countByte c s)%nat by (apply H; eauto). lia.
  - apply Z.ltb_ge. destruct (countByte c s); [lia|].
    exfalso. destruct H as [H _]. destruct H as [? ?]; [lia|discriminate].
Qed.

(** A byte other than the separator is in the string exactly when it is in
    one of the pieces. *)
Lemma hasByte_splitByte a sep s :
  a <> sep -> hasByte a s = existsb (hasByte a) (splitByte sep s).
Proof.
  intros Hne. induction s as [|x s IH]; [reflexivity|].
  cbn [hasByte splitByte]. destruct (Ascii.eqb sep x) eqn:Hx.
  - apply Ascii.eqb_eq in Hx. subst x.
    assert (Ascii.eqb a sep = false) as -> by (apply Ascii.eqb_neq; exact Hne).
    simpl. exact IH.
  - rewrite IH. destruct (splitByte sep s) as [|t ts] eqn:Hs.
    + exfalso. eapply splitByte_nonempty. exact Hs.
    + simpl. rewrite orb_assoc. reflexivity.
Qed.

Lemma splitByte_app sep a b :
  splitByte sep (a ++ String sep b)%string = (splitByte sep a ++ splitByte sep b)%list.
Proof.
  induction a as [|x a IH]; simpl.
  - rewrite Ascii.eqb_refl. reflexivity.
  - destruct (Ascii.eqb sep x); rewrite IH; [reflexivity|].
    destruct (splitByte sep a) as [|t ts] eqn:Hs.
    + exfalso. eapply splitByte_nonempty. exact Hs.
    + reflexivity.
Qed.

Lemma substring_0_app a b :
  String.substring 0 (String.length a) (a ++ b)%string = a.
Proof. induction a as [|x a IH]; simpl; [destruct b; reflexivity|]. rewrite IH. reflexivity. Qed.

Lemma indexByte_app c a b :
  hasByte c a = false ->
  indexByte c (a ++ String c b)%string = Some (String.length a).
Proof.
  induction a as [|x a IH]; simpl.
  - rewrite Ascii.eqb_refl. reflexivity.
  - intros H. apply orb_false_iff in H as [Hx Ha].
    rewrite Hx, (IH Ha). reflexivity.
Qed.

(** ** The truncation at the placeholder *)

Lemma trimPlaceholder_spec command :
  trimPlaceholder command
  = match indexByte "%" command with
    | None => Some command
    | Some O => None
    | Some (S k) => Some (String.substring 0 k command)
    end.
Proof.
  unfold trimPlaceholder. rewrite Contains_byte, Index_byte.
  destruct (indexByte "%" command) as [n|] eqn:Hn; [|reflexivity].
  apply indexByte_lt in Hn. unfold GoStrings.slice_to, GoStrings.len.
  destruct n as [|k]; [reflexivity|].
  Zfalse (Z.of_nat (S k) =? -1). cbn [negb].
  replace (Z.of_nat (S k) - 1) with (Z.of_nat k) by lia.
  rewrite Nat2Z.id.
  Ztrue (0 <=? Z.of_nat k).
  Ztrue (Z.of_nat k <=? Z.of_nat (String.length command)).
  reflexivity.
Qed.

(** ** The scan of the tokens *)

Lemma firstIndex_lookup {A} (p : A -> bool) l k :
  firstIndex p l = Some k ->
  exists x, l !! k = Some x /\ p x = true
            /\ forall j y, (j < k)%nat -> l !! j = Some y -> p y = false.
Proof.
  revert k. induction l as [|x l IH]; intros k; simpl; [discriminate|].
  destruct (p x) eqn:Hp.
  - intros [= <-]. exists x. repeat split; [exact Hp|]. intros j y Hj. lia.
  - destruct (firstIndex p l) as [m|]; simpl; [|discriminate].
    intros [= <-]. destruct (IH m eq_refl) as (z & Hz & Hpz & Hlt).
    exists z. repeat split; [exact Hz|exact Hpz|].
    intros [|j] y Hj; simpl.
    + intros [= <-]. exact Hp.
    + apply Hlt. lia.
Qed.

Lemma firstIndex_None {A} (p : A -> bool) l :
  firstIndex p l = None -> forall x, In x l -> p x = false.
Proof.
  induction l as [|y l IH]; simpl; [intros _ x []|].
  destruct (p y) eqn:Hp; [discriminate|].
  destruct (firstIndex p l); simpl; [discriminate|].
  intros _ x [<-|Hx]; [exact Hp|]. apply IH; [reflexivity|exact Hx].
Qed.

(** The loop collects the assignments in order and keeps the first index
    of a token that can be the executable. *)
Lemma scanElements_spec elements idx envVars cmdIdx :
  0 <= idx ->
  scanElements elements idx (envVars, cmdIdx)
  = ((envVars ++ List.filter isAssignment elements)%list,
     if cmdIdx =? -1
     then match firstIndex isExecutable elements with
          | Some k => idx + Z.of_nat k
          | None => -1
          end
     else cmdIdx).
Proof.
  revert idx envVars cmdIdx.
  induction elements as [|item rest IH]; intros idx envVars cmdIdx Hidx.
  - simpl. rewrite app_nil_r. destruct (cmdIdx =? -1) eqn:E; [|reflexivity].
    apply Z.eqb_eq in E. subst. reflexivity.
  - cbn [scanElements scanElement List.filter firstIndex].
    assert (forall o : option nat,
      match option_map S o with Some k => idx + Z.of_nat k | None => -1 end
      = match o with Some k => idx + 1 + Z.of_nat k | None => -1 end) as Hshift
      by (intros [k|]; cbn [option_map]; [lia|reflexivity]).
    destruct (GoStrings.Contains item "=") eqn:Hc.
    + assert (isAssignment item = true) as -> by exact Hc.
      assert (isExecutable item = false) as ->
        by (unfold isExecutable; rewrite Hc; reflexivity).
      rewrite IH by lia. rewrite <- app_assoc, Hshift. reflexivity.
    + assert (isAssignment item = false) as -> by exact Hc.
      destruct (GoStrings.HasPrefix item "-") eqn:Hp; cbn [negb andb].
      * assert (isExecutable item = false) as ->
          by (unfold isExecutable; rewrite Hc, Hp; reflexivity).
        rewrite IH by lia. rewrite Hshift. reflexivity.
      * assert (isExecutable item = true) as ->
          by (unfold isExecutable; rewrite Hc, Hp; reflexivity).
        destruct (cmdIdx =? -1) eqn:E; rewrite IH by lia; f_equal.
        -- Zfalse (idx =? -1). simpl. lia.
        -- rewrite E. reflexivity.
Qed.

Lemma executableIndex_lt command :
  (executableIndex command < List.length (GoStrings.Split command " "))%nat.
Proof.
  unfold executableIndex.
  pose proof (Split_nonempty command " ") as Hne.
  assert (0 < List.length (GoStrings.Split command " "))%nat as Hpos
    by (destruct (GoStrings.Split command " "); [congruence|simpl; lia]).
  destruct (GoStrings.Contains command "="); [|exact Hpos].
  destruct (firstIndex isExecutable (GoStrings.Split command " ")) as [k|] eqn:Hk;
    [|exact Hpos].
  destruct (firstIndex_lookup _ _ _ Hk) as (x & Hx & _).
  simpl. eapply lookup_lt_Some. exact Hx.
Qed.

Lemma envOverrides_nil command :
  GoStrings.Contains command "=" = false -> envOverrides command = [].
Proof.
  intros H. unfold envOverrides. rewrite Split_byte.
  rewrite Contains_hasByte in H.
  rewrite (hasByte_splitByte "=" " ") in H by discriminate.
  induction (splitByte " " command) as [|t ts IH]; [reflexivity|].
  simpl in H. apply orb_false_iff in H as [Ht Hts].
  simpl. unfold isAssignment at 1. rewrite Contains_hasByte, Ht. apply IH, Hts.
Qed.

Lemma envOverrides_not_nil command :
  GoStrings.Contains command "=" = true -> envOverrides command <> [].
Proof.
  intros H. unfold envOverrides. rewrite Split_byte.
  rewrite Contains_hasByte in H.
  rewrite (hasByte_splitByte "=" " ") in H by discriminate.
  induction (splitByte " " command) as [|t ts IH]; [discriminate|].
  simpl in H. simpl. unfold isAssignment at 1. rewrite Contains_hasByte.
  destruct (hasByte "=" t); [discriminate|]. apply IH. exact H.
Qed.

(** What [launch] starts, once the truncation left [command]. *)
Lemma launchElements_spec term daemon environ command terminal :
  exists name,
    GoStrings.Split command " " !! executableIndex command = Some name /\
    launchElements term daemon environ command terminal
    = Some ({| Path := if terminal then term else name;
               Args := if terminal then [term; name]
                       else name :: drop (S (executableIndex command))
                                      (GoStrings.Split command " ");
               Env := match envOverrides command with
                      | [] => None
                      | envVars => Some (environ ++ envVars)%list
                      end |},
            if daemon then WinHide else MainQuit).
Proof.
  pose proof (executableIndex_lt command) as Hlt.
  destruct (lookup_lt_is_Some_2 _ _ Hlt) as [name Hname].
  exists name. split; [exact Hname|].
  unfold launchElements. rewrite Count_pos_Contains.
  assert (exists envVars cmdIdx,
    (if GoStrings.Contains command "="
     then scanElements (GoStrings.Split command " ") 0 ([], -1)
     else ([], -1)) = (envVars, cmdIdx)
    /\ envVars = envOverrides command
    /\ (if cmdIdx =? -1 then 0 else cmdIdx) = Z.of_nat (executableIndex command))
    as (envVars & cmdIdx & -> & -> & HcmdIdx).
  { unfold executableIndex.
    destruct (GoStrings.Contains command "=") eqn:Hc.
    - rewrite scanElements_spec by lia. eexists _, _. split; [reflexivity|].
      split; [reflexivity|]. change (-1 =? -1) with true. cbv iota.
      destruct (firstIndex isExecutable (GoStrings.Split command " ")) as [k|];
        [|reflexivity].
      rewrite Z.add_0_l.
      destruct (Z.of_nat k =? -1) eqn:E; [apply Z.eqb_eq in E; lia|reflexivity].
    - eexists _, _. split; [reflexivity|].
      split; [symmetry; apply envOverrides_nil; exact Hc|reflexivity]. }
  rewrite HcmdIdx.
  unfold GoSlice.at_index, GoSlice.slice_from, GoSlice.len.
  Zfalse (Z.of_nat (executableIndex command) <? 0).
  rewrite Nat2Z.id, Hname. cbn [mbind option_bind].
  Ztrue (0 <=? 1 + Z.of_nat (executableIndex command)).
  Ztrue (1 + Z.of_nat (executableIndex command)
         <=? Z.of_nat (List.length (GoStrings.Split command " "))).
  cbn [andb mbind option_bind].
  replace (Z.to_nat (1 + Z.of_nat (executableIndex command)))
    with (S (executableIndex command)) by lia.
  destruct (envOverrides command) as [|e es]; destruct terminal; reflexivity.
Qed.

Lemma launch_after_trim term daemon environ command c terminal :
  trimPlaceholder command = Some c ->
  launch term daemon environ command terminal
  = launchElements term daemon environ c terminal.
Proof. intros H. unfold launch. rewrite H. reflexivity. Qed.

Lemma Env_of_overrides (environ : list string) command :
  GoStrings.Contains command "=" = true ->
  match envOverrides command with
  | [] => None
  | envVars => Some (environ ++ envVars)%list
  end = Some (environ ++ envOverrides command)%list.
Proof.
  intros H. apply envOverrides_not_nil in H.
  destruct (envOverrides command); [congruence|reflexivity].
Qed.

(** ** The command interpreter: claims C1, C2, C6, C7 and C10 *)

(** C1, as the specification states it, fails: the arguments of the started
    command are not the tokens of the split from index 1 on.  For
    [FOO=bar cmd arg1] the command [cmd] gets the one argument [arg1], and
    for [A=1 B=2 cmd x] neither the arguments nor the whole argument vector
    are the tokens from index 1 on. *)
Lemma launch_arguments_counterexample :
  (exists cmd ui,
     launch "foot" false [] "FOO=bar cmd arg1" false = Some (cmd, ui)
     /\ arguments cmd = ["arg1"]
     /\ specArgumentsFromIndex1 "FOO=bar cmd arg1" = ["cmd"; "arg1"]
     /\ arguments cmd <> specArgumentsFromIndex1 "FOO=bar cmd arg1")
  /\ (exists cmd ui,
     launch "foot" false [] "A=1 B=2 cmd x" false = Some (cmd, ui)
     /\ Args cmd = ["cmd"; "x"]
     /\ specArgumentsFromIndex1 "A=1 B=2 cmd x" = ["B=2"; "cmd"; "x"]
     /\ arguments cmd <> specArgumentsFromIndex1 "A=1 B=2 cmd x"
     /\ Args cmd <> specArgumentsFromIndex1 "A=1 B=2 cmd x").
Proof.
  split.
  - exists {| Path := "cmd"; Args := ["cmd"; "arg1"]; Env := Some ["FOO=bar"] |}, MainQuit.
    repeat split; try (vm_compute; reflexivity). vm_compute. discriminate.
  - exists {| Path := "cmd"; Args := ["cmd"; "x"]; Env := Some ["A=1"; "B=2"] |}, MainQuit.
    repeat split; try (vm_compute; reflexivity); vm_compute; discriminate.
Qed.

(** C1, amended: for every exec template whose truncated form [c] holds a
    [=], the executable is the first token of the split with no [=] and no
    leading [-] (token 0 when there is none), the environment overrides are
    the tokens with a [=] after the inherited environment, and the
    arguments are the tokens that follow the executable token: the slice of
    the split from one past the index of the executable. *)
Theorem launch_arguments_follow_executable term daemon environ command c :
  trimPlaceholder command = Some c ->
  GoStrings.Contains c "=" = true ->
  let elements := GoStrings.Split c " " in
  let cmdIdx := default 0%nat (firstIndex isExecutable elements) in
  exists name,
    elements !! cmdIdx = Some name
    /\ launch term daemon environ command false
       = Some ({| Path := name;
                  Args := name :: drop (S cmdIdx) elements;
                  Env := Some (environ ++ List.filter isAssignment elements)%list |},
               if daemon then WinHide else MainQuit).
Proof.
  intros Htrim Hc elements cmdIdx.
  destruct (launchElements_spec term daemon environ c false) as (name & Hname & Hl).
  assert (executableIndex c = cmdIdx) as Hk
    by (unfold executableIndex; rewrite Hc; reflexivity).
  rewrite Hk in Hname, Hl. exists name. split; [exact Hname|].
  rewrite (launch_after_trim _ _ _ _ _ _ Htrim), Hl.
  rewrite (Env_of_overrides environ c Hc). reflexivity.
Qed.

Lemma launch_arguments_follow_executable_witness :
  exists name,
    GoStrings.Split "FOO=bar cmd arg1" " " !! 1%nat = Some name
    /\ launch "foot" false ["HOME=/root"] "FOO=bar cmd arg1" false
       = Some ({| Path := name; Args := [name; "arg1"];
                  Env := Some ["HOME=/root"; "FOO=bar"] |}, MainQuit).
Proof.
  exact (launch_arguments_follow_executable "foot" false ["HOME=/root"]
           "FOO=bar cmd arg1" "FOO=bar cmd arg1" eq_refl eq_refl).
Defined.

(** C2: the code does not guard the placeholder at position 0.  For every
    template that starts with [%] the slice bound [cutAt-1] is [-1] and
    [launch] panics, in either mode. *)
Theorem launch_panics_on_leading_placeholder term daemon environ rest terminal :
  GoStrings.Index (String "%" rest) "%" - 1 = -1
  /\ trimPlaceholder (String "%" rest) = None
  /\ launch term daemon environ (String "%" rest) terminal = None.
Proof.
  assert (trimPlaceholder (String "%" rest) = None) as H
    by (rewrite trimPlaceholder_spec; reflexivity).
  split; [rewrite Index_byte; reflexivity|].
  split; [exact H|]. unfold launch. rewrite H. reflexivity.
Qed.

Lemma takeWhile_app_stop {A} (p : A -> bool) l x r :
  (forall y, In y l -> p y = true) -> p x = false ->
  takeWhile p (l ++ x :: r) = l.
Proof.
  intros Hl Hx. induction l as [|y l IH]; simpl.
  - rewrite Hx. reflexivity.
  - rewrite (Hl y) by (left; reflexivity). f_equal. apply IH.
    intros z Hz. apply Hl. right. exact Hz.
Qed.

Lemma append_String x a b :
  (String x a ++ b)%string = String x (a ++ b)%string.
Proof. reflexivity. Qed.

Lemma append_snoc_cons a c b :
  ((a ++ String c EmptyString) ++ b)%string = (a ++ String c b)%string.
Proof.
  induction a as [|x a IH]; [reflexivity|].
  rewrite !append_String, IH. reflexivity.
Qed.

Lemma hasByte_app c a b : hasByte c (a ++ b)%string = hasByte c a || hasByte c b.
Proof.
  induction a as [|x a IH]; [reflexivity|].
  rewrite append_String. cbn [hasByte]. rewrite IH, orb_assoc. reflexivity.
Qed.

Lemma string_length_app a b :
  String.length (a ++ b)%string = (String.length a + String.length b)%nat.
Proof.
  induction a as [|x a IH]; [reflexivity|].
  rewrite append_String. cbn [String.length]. rewrite IH. reflexivity.
Qed.

(** C6, as the specification states it, fails when the first [%] is inside
    a token: for [cmd --file=%f] the code keeps [cmd --file], that is the
    tokens [cmd] and [--file], where dropping the placeholder token leaves
    [cmd] alone and cutting at the [%] leaves [cmd --file=]. *)
Lemma trimPlaceholder_counterexample :
  trimPlaceholder "cmd --file=%f" = Some "cmd --file"
  /\ GoStrings.Split "cmd --file" " " = ["cmd"; "--file"]
  /\ specTokensBeforePlaceholder "cmd --file=%f" = ["cmd"]
  /\ GoStrings.Split "cmd --file" " " <> specTokensBeforePlaceholder "cmd --file=%f"
  /\ String.substring 0 (Z.to_nat (GoStrings.Index "cmd --file=%f" "%")) "cmd --file=%f"
     = "cmd --file="
  /\ launch "foot" false [] "cmd --file=%f" false
     = Some ({| Path := "cmd"; Args := ["cmd"; "--file"]; Env := None |}, MainQuit).
Proof. repeat split; try (vm_compute; reflexivity). vm_compute. discriminate. Qed.

(** C6, amended: for every exec template whose first [%] starts a token
    that a single space separates from the text before it, the command
    interpreter truncates the template at that placeholder token: it keeps
    the text before the separating space, whose tokens are the tokens before
    the placeholder token, and drops the token and everything after it.  In
    particular [cmd %U extra] yields the executable [cmd] with no
    arguments. *)
Theorem trimPlaceholder_drops_placeholder_token pre post :
  GoStrings.Contains pre "%" = false ->
  let command := (pre ++ " %" ++ post)%string in
  trimPlaceholder command = Some pre
  /\ GoStrings.Split pre " " = specTokensBeforePlaceholder command
  /\ (forall term daemon environ terminal,
        launch term daemon environ command terminal
        = launchElements term daemon environ pre terminal)
  /\ (forall term daemon environ,
        launch term daemon environ "cmd %U extra" false
        = Some (Command "cmd" [], if daemon then WinHide else MainQuit)).
Proof.
  intros Hpre command. rewrite Contains_hasByte in Hpre.
  assert (trimPlaceholder command = Some pre) as Htrim.
  { rewrite trimPlaceholder_spec. unfold command.
    change (" %" ++ post)%string with (String " " (String "%" post)).
    rewrite <- (append_snoc_cons pre " " (String "%" post)).
    rewrite indexByte_app
      by (rewrite hasByte_app, Hpre; reflexivity).
    rewrite string_length_app, Nat.add_comm. cbn [String.length Nat.add].
    rewrite append_snoc_cons, substring_0_app. reflexivity. }
  split; [exact Htrim|]. split; [|split].
  - unfold specTokensBeforePlaceholder, command.
    change (" %" ++ post)%string with (String " " (String "%" post)).
    rewrite !Split_byte, splitByte_app.
    rewrite (hasByte_splitByte "%" " ") in Hpre by discriminate.
    assert (exists t ts, splitByte " " (String "%" post) = String "%" t :: ts)
      as (t & ts & ->).
    { cbn [splitByte]. change (Ascii.eqb " " "%") with false. cbv iota.
      destruct (splitByte " " post) as [|t ts]; eauto. }
    symmetry. apply takeWhile_app_stop.
    + intros y Hy. rewrite Contains_hasByte.
      destruct (hasByte "%" y) eqn:E; [|reflexivity].
      assert (existsb (hasByte "%") (splitByte " " pre) = true) as Hex
        by (apply existsb_exists; eauto).
      congruence.
    + rewrite Contains_hasByte. reflexivity.
  - intros. apply launch_after_trim. exact Htrim.
  - intros. destruct daemon; vm_compute; reflexivity.
Qed.

Lemma trimPlaceholder_drops_placeholder_token_witness :
  trimPlaceholder "cmd -v %U extra" = Some "cmd -v"
  /\ GoStrings.Split "cmd -v" " " = specTokensBeforePlaceholder "cmd -v %U extra"
  /\ (forall term daemon environ terminal,
        launch term daemon environ "cmd -v %U extra" terminal
        = launchElements term daemon environ "cmd -v" terminal)
  /\ (forall term daemon environ,
        launch term daemon environ "cmd %U extra" false
        = Some (Command "cmd" [], if daemon then WinHide else MainQuit)).
Proof.
  exact (trimPlaceholder_drops_placeholder_token "cmd -v" "U extra" eq_refl).
Defined.

(** C7: for every descriptor with [terminal=true] whose template the
    truncation accepts, [launch] starts the configured terminal emulator
    with one argument, the executable token that the other mode would
    start, and with the environment of the other mode. *)
Theorem launch_terminal_wraps_executable term daemon environ command c :
  trimPlaceholder command = Some c ->
  exists name arg env ui,
    GoStrings.Split c " " !! executableIndex c = Some name
    /\ launch term daemon environ command false
       = Some ({| Path := name; Args := name :: arg; Env := env |}, ui)
    /\ launch term daemon environ command true
       = Some ({| Path := term; Args := [term; name]; Env := env |}, ui)
    /\ arguments {| Path := term; Args := [term; name]; Env := env |} = [name].
Proof.
  intros Htrim.
  destruct (launchElements_spec term daemon environ c false) as (name & Hname & Hf).
  destruct (launchElements_spec term daemon environ c true) as (name' & Hname' & Ht).
  assert (name' = name) as -> by congruence.
  rewrite !(launch_after_trim _ _ _ _ _ _ Htrim), Hf, Ht.
  eexists name, _, _, _. split; [exact Hname|].
  split; [reflexivity|]. split; reflexivity.
Qed.

Lemma launch_terminal_wraps_executable_witness :
  exists name arg env ui,
    GoStrings.Split "vim file.txt" " " !! executableIndex "vim file.txt" = Some name
    /\ launch "foot" false [] "vim file.txt" false
       = Some ({| Path := name; Args := name :: arg; Env := env |}, ui)
    /\ launch "foot" false [] "vim file.txt" true
       = Some ({| Path := "foot"; Args := ["foot"; name]; Env := env |}, ui)
    /\ arguments {| Path := "foot"; Args := ["foot"; name]; Env := env |} = [name].
Proof.
  exact (launch_terminal_wraps_executable "foot" false [] "vim file.txt"
           "vim file.txt" eq_refl).
Defined.

Example launch_terminal_vim :
  launch "foot" false [] "vim file.txt" true
  = Some ({| Path := "foot"; Args := ["foot"; "vim"]; Env := None |}, MainQuit).
Proof. vm_compute. reflexivity. Qed.

(** C10: a token with a [=] that comes after the executable token is, when
    the command is started without a terminal, both among the arguments of
    the started command and among the overrides appended to the inherited
    environment.  In particular [cmd FOO=bar arg] starts [cmd] with the
    arguments [FOO=bar] and [arg] and with [FOO=bar] after the inherited
    environment. *)
Theorem launch_assignment_after_executable_is_argument
  term daemon environ command c i item :
  trimPlaceholder command = Some c ->
  (executableIndex c < i)%nat ->
  GoStrings.Split c " " !! i = Some item ->
  GoStrings.Contains item "=" = true ->
  (exists cmd ui envVars,
     launch term daemon environ command false = Some (cmd, ui)
     /\ In item (arguments cmd)
     /\ Env cmd = Some (environ ++ envVars)%list
     /\ In item envVars)
  /\ launch term daemon environ "cmd FOO=bar arg" false
     = Some ({| Path := "cmd"; Args := ["cmd"; "FOO=bar"; "arg"];
                Env := Some (environ ++ ["FOO=bar"])%list |},
             if daemon then WinHide else MainQuit).
Proof.
  intros Htrim Hi Hitem Hc. split; [|destruct daemon; vm_compute; reflexivity].
  destruct (launchElements_spec term daemon environ c false) as (name & Hname & Hl).
  assert (In item (envOverrides c)) as Hin.
  { unfold envOverrides. apply filter_In. split; [|exact Hc].
    apply list_elem_of_In. eapply list_elem_of_lookup_2. exact Hitem. }
  rewrite (launch_after_trim _ _ _ _ _ _ Htrim), Hl.
  eexists _, _, (envOverrides c). split; [reflexivity|].
  cbn [arguments Args Env tail]. split; [|split; [|exact Hin]].
  - apply list_elem_of_In.
    apply (list_elem_of_lookup_2 _ (i - S (executableIndex c))%nat).
    rewrite lookup_drop. rewrite <- Hitem. f_equal. lia.
  - destruct (envOverrides c); [destruct Hin|reflexivity].
Qed.

Lemma launch_assignment_after_executable_is_argument_witness :
  (exists cmd ui envVars,
     launch "foot" true ["HOME=/root"] "cmd FOO=bar arg" false = Some (cmd, ui)
     /\ In "FOO=bar" (arguments cmd)
     /\ Env cmd = Some (["HOME=/root"] ++ envVars)%list
     /\ In "FOO=bar" envVars)
  /\ launch "foot" true ["HOME=/root"] "cmd FOO=bar arg" false
     = Some ({| Path := "cmd"; Args := ["cmd"; "FOO=bar"; "arg"];
                Env := Some (["HOME=/root"] ++ ["FOO=bar"])%list |}, WinHide).
Proof.
  refine (launch_assignment_after_executable_is_argument "foot" true ["HOME=/root"]
            "cmd FOO=bar arg" "cmd FOO=bar arg" 1%nat "FOO=bar"
            eq_refl _ eq_refl eq_refl).
  vm_compute. lia.
Defined.

(** ** The scanner *)

Lemma append_assoc_string a b c :
  ((a ++ b) ++ c)%string = (a ++ (b ++ c))%string.
Proof.
  induction a as [|x a IH]; [reflexivity|].
  rewrite !append_String, IH. reflexivity.
Qed.

Lemma rawLines_line l rest :
  hasByte LF l = false ->
  GoBufio.rawLines (l ++ String LF rest)%string = l :: GoBufio.rawLines rest.
Proof.
  induction l as [|x l IH]; intros H.
  - reflexivity.
  - cbn [hasByte] in H. apply orb_false_iff in H as [Hx Hl].
    rewrite append_String. cbn [GoBufio.rawLines].
    rewrite Ascii.eqb_sym in Hx. change "010"%char with LF.
    rewrite Hx, (IH Hl). reflexivity.
Qed.

Lemma rawLines_unlines pre rest :
  Forall (fun l => hasByte LF l = false) pre ->
  GoBufio.rawLines (unlines pre ++ rest)%string = (pre ++ GoBufio.rawLines rest)%list.
Proof.
  induction 1 as [|l pre Hl _ IH]; [reflexivity|].
  cbn [unlines]. rewrite append_assoc_string, append_String.
  rewrite (rawLines_line _ _ Hl), IH. reflexivity.
Qed.

Lemma append_empty_r a : (a ++ "")%string = a.
Proof. induction a as [|x a IH]; [reflexivity|]. rewrite append_String, IH. reflexivity. Qed.

Lemma ScanLines_unlines pre rest :
  Forall (fun l => hasByte LF l = false) pre ->
  GoBufio.ScanLines (unlines pre ++ rest)%string
  = map GoBufio.dropCR (GoBufio.untilTooLong (pre ++ GoBufio.rawLines rest)).
Proof. intros H. unfold GoBufio.ScanLines. rewrite (rawLines_unlines _ _ H). reflexivity. Qed.

(** ** The entry parser: claims C8 and C9 *)

Lemma scanEntry_stops LANG pre l post entry :
  otherSection l = true ->
  scanEntry LANG (pre ++ l :: post) entry = scanEntry LANG pre entry.
Proof.
  intros Hl. revert entry. induction pre as [|x pre IH]; intros entry; simpl.
  - rewrite Hl. reflexivity.
  - destruct (otherSection x); [reflexivity|apply IH].
Qed.

Lemma scanEntry_stops_scanned LANG pre l rest entry :
  otherSection (GoBufio.dropCR l) = true ->
  scanEntry LANG (map GoBufio.dropCR (GoBufio.untilTooLong (pre ++ l :: rest))) entry
  = scanEntry LANG (map GoBufio.dropCR (GoBufio.untilTooLong pre)) entry.
Proof.
  intros Hl. revert entry. induction pre as [|x pre IH]; intros entry; simpl.
  - destruct (GoBufio.fits l); simpl; [rewrite Hl|]; reflexivity.
  - destruct (GoBufio.fits x); simpl; [|reflexivity].
    destruct (otherSection (GoBufio.dropCR x)); [reflexivity|apply IH].
Qed.

Lemma hasByte_deleteBytes q olds s :
  In q olds -> hasByte q (GoStrings.deleteBytes olds s) = false.
Proof.
  intros Hq. induction s as [|x s IH]; [reflexivity|].
  cbn [GoStrings.deleteBytes]. destruct (existsb (Ascii.eqb x) olds) eqn:E; [exact IH|].
  cbn [hasByte]. rewrite IH, orb_false_r.
  destruct (Ascii.eqb q x) eqn:Hx; [|reflexivity].
  apply Ascii.eqb_eq in Hx. subst x.
  assert (existsb (Ascii.eqb q) olds = true) as Hex
    by (apply existsb_exists; exists q; split; [exact Hq|apply Ascii.eqb_refl]).
  congruence.
Qed.

Lemma Exec_setKey LANG name value entry :
  Exec (setKey LANG name value entry) = Exec entry
  \/ Exec (setKey LANG name value entry) = cleanexec value.
Proof.
  unfold setKey.
  repeat match goal with
         | |- context [if ?b then _ else _] => destruct b; [left; reflexivity|]
         end.
  destruct (String.eqb name "Exec"); [right|left]; reflexivity.
Qed.

Lemma Exec_scanLine LANG l entry :
  Exec (scanLine LANG l entry) = Exec entry
  \/ exists value, Exec (scanLine LANG l entry) = cleanexec value.
Proof.
  unfold scanLine. destruct (parseKeypair l) as [name value].
  destruct (String.eqb value ""); [left; reflexivity|].
  destruct (Exec_setKey LANG name value entry) as [H|H]; eauto.
Qed.

Lemma Exec_scanEntry_clean LANG q lines entry :
  In q [dquote; squote] ->
  hasByte q (Exec entry) = false ->
  hasByte q (Exec (scanEntry LANG lines entry)) = false.
Proof.
  intros Hq. revert entry. induction lines as [|l lines IH]; intros entry He; simpl.
  - exact He.
  - destruct (otherSection l); [exact He|]. apply IH.
    destruct (Exec_scanLine LANG l entry) as [->|[value ->]]; [exact He|].
    apply hasByte_deleteBytes. exact Hq.
Qed.

Lemma Exec_fillLocalized entry : Exec (fillLocalized entry) = Exec entry.
Proof.
  unfold fillLocalized.
  destruct (String.eqb (NameLoc entry) "");
    match goal with |- context [if ?b then _ else _] => destruct b end;
    reflexivity.
Qed.

(** C8: the parser consumes no line from the first line on that starts
    with [[] and is not [[Desktop Entry]]: a stream made of the lines
    [pre], such a line [l] and any [tail] is parsed as the stream of the
    lines [pre] alone.  The value of [Exec] is stored with every double and
    single quote deleted, so the [Exec] of a parsed descriptor holds
    neither.  The stream of the example yields the name [Foo] and the exec
    template [cmd --flag]. *)
Theorem parseDesktopEntry_primary_section_and_exec LANG :
  (forall id pre l tail,
     Forall (fun x => hasByte LF x = false) pre ->
     hasByte LF l = false ->
     otherSection (GoBufio.dropCR l) = true ->
     parseDesktopEntry LANG id (unlines pre ++ l ++ String LF tail)%string
     = parseDesktopEntry LANG id (unlines pre))
  /\ (forall pre l post entry,
        otherSection l = true ->
        scanEntry LANG (pre ++ l :: post) entry = scanEntry LANG pre entry)
  /\ (forall l value entry,
        parseKeypair l = ("Exec", value) -> value <> "" ->
        Exec (scanLine LANG l entry) = cleanexec value)
  /\ (forall value,
        hasByte dquote (cleanexec value) = false
        /\ hasByte squote (cleanexec value) = false)
  /\ (forall id data,
        hasByte dquote (Exec (fst (parseDesktopEntry LANG id data))) = false
        /\ hasByte squote (Exec (fst (parseDesktopEntry LANG id data))) = false)
  /\ (forall id,
        Name (fst (parseDesktopEntry LANG id exampleStream)) = "Foo"
        /\ Exec (fst (parseDesktopEntry LANG id exampleStream)) = "cmd --flag").
Proof.
  repeat apply conj.
  - intros id pre l tail Hpre Hl Hstop. unfold parseDesktopEntry. do 2 f_equal.
    rewrite (ScanLines_unlines pre _ Hpre), (rawLines_line _ _ Hl).
    rewrite scanEntry_stops_scanned by exact Hstop.
    rewrite <- (append_empty_r (unlines pre)).
    rewrite (ScanLines_unlines pre "" Hpre). cbn [GoBufio.rawLines].
    rewrite app_nil_r. reflexivity.
  - intros. apply scanEntry_stops. assumption.
  - intros l value entry Hkp Hv. unfold scanLine. rewrite Hkp.
    apply String.eqb_neq in Hv. rewrite Hv. reflexivity.
  - intros value. split; apply hasByte_deleteBytes; simpl; auto.
  - intros id data. unfold parseDesktopEntry. cbn [fst].
    rewrite Exec_fillLocalized.
    split; apply Exec_scanEntry_clean; simpl; auto.
  - intros id. split; vm_compute; reflexivity.
Qed.

Lemma parseDesktopEntry_primary_section_and_exec_witness :
  parseDesktopEntry "en_US.UTF-8" "a.desktop"
    (unlines ["[Desktop Entry]"; "Name=Foo"] ++ "[Desktop Action new]"
       ++ String LF "Name=Other")%string
  = parseDesktopEntry "en_US.UTF-8" "a.desktop" (unlines ["[Desktop Entry]"; "Name=Foo"])
  /\ scanEntry "en_US.UTF-8" (["Name=Foo"] ++ "[Desktop Action new]" :: ["Name=Other"])
       zeroEntry
     = scanEntry "en_US.UTF-8" ["Name=Foo"] zeroEntry
  /\ Exec (scanLine "en_US.UTF-8" "Exec='a' b" zeroEntry) = cleanexec "'a' b".
Proof.
  destruct (parseDesktopEntry_primary_section_and_exec "en_US.UTF-8")
    as (H1 & H2 & H3 & _).
  split; [|split].
  - apply (H1 "a.desktop" ["[Desktop Entry]"; "Name=Foo"] "[Desktop Action new]" "Name=Other").
    + repeat constructor.
    + reflexivity.
    + reflexivity.
  - apply (H2 ["Name=Foo"] "[Desktop Action new]" ["Name=Other"] zeroEntry).
    reflexivity.
  - apply (H3 "Exec='a' b" "'a' b" zeroEntry).
    + vm_compute. reflexivity.
    + discriminate.
Defined.

Lemma eqb_localizedName LANG key :
  hd_error (list_ascii_of_string key) <> Some "N"%char ->
  String.eqb key (localizedName LANG) = false.
Proof.
  intros H. unfold localizedName. destruct key as [|k key]; [reflexivity|].
  change ("Name[" ++ hd "" (GoStrings.Split (lang LANG) "_") ++ "]")%string
    with (String "N" ("ame[" ++ hd "" (GoStrings.Split (lang LANG) "_") ++ "]"))%string.
  cbn [String.eqb]. destruct (Ascii.eqb k "N") eqn:E; [|reflexivity].
  apply Ascii.eqb_eq in E. subst k. exfalso. apply H. reflexivity.
Qed.

Lemma eqb_localizedComment LANG key :
  hd_error (list_ascii_of_string key) <> Some "C"%char ->
  String.eqb key (localizedComment LANG) = false.
Proof.
  intros H. unfold localizedComment. destruct key as [|k key]; [reflexivity|].
  change ("Comment[" ++ hd "" (GoStrings.Split (lang LANG) "_") ++ "]")%string
    with (String "C" ("omment[" ++ hd "" (GoStrings.Split (lang LANG) "_") ++ "]"))%string.
  cbn [String.eqb]. destruct (Ascii.eqb k "C") eqn:E; [|reflexivity].
  apply Ascii.eqb_eq in E. subst k. exfalso. apply H. reflexivity.
Qed.

(** C9: whatever the identity and the bytes of the stream,
    [parseDesktopEntry] returns a [nil] error, so that
    [parseDesktopEntryFile] fails exactly when the file does not open.  A
    line without [=] or with an empty value leaves the entry as it is, a key
    without a case in the [switch] is ignored, and a [Terminal] or
    [NoDisplay] value that is no boolean makes the field [false]. *)
Theorem parseDesktopEntry_never_fails LANG :
  (forall id data, snd (parseDesktopEntry LANG id data) = None)
  /\ (forall fs id path,
        snd (parseDesktopEntryFile LANG fs id path) = None <-> is_Some (fs !! path))
  /\ (forall l entry,
        GoStrings.Contains l "=" = false -> scanLine LANG l entry = entry)
  /\ (forall l name entry,
        parseKeypair l = (name, "") -> scanLine LANG l entry = entry)
  /\ (forall name value entry,
        ~ In name (knownKeys LANG) -> setKey LANG name value entry = entry)
  /\ (forall value entry,
        snd (GoStrconv.ParseBool value) <> None ->
        Terminal (setKey LANG "Terminal" value entry) = false
        /\ NoDisplay (setKey LANG "NoDisplay" value entry) = false).
Proof.
  repeat apply conj.
  - reflexivity.
  - intros fs id path. unfold parseDesktopEntryFile.
    destruct (fs !! path) as [data|]; cbn [snd]; split.
    + eauto.
    + reflexivity.
    + discriminate.
    + intros [? ?]; discriminate.
  - intros l entry H. unfold scanLine, parseKeypair.
    unfold GoStrings.Contains in H. apply Z.leb_gt in H.
    Zfalse (0 <? GoStrings.Index l "=").
    reflexivity.
  - intros l name entry H. unfold scanLine. rewrite H. reflexivity.
  - intros name value entry H. unfold setKey, knownKeys in *.
    repeat match goal with
           | |- context [String.eqb name ?k] =>
               destruct (String.eqb_spec name k) as [->|_];
               [exfalso; apply H; simpl; tauto|]
           end.
    reflexivity.
  - intros value entry H. unfold setKey.
    rewrite !eqb_localizedName, !eqb_localizedComment by (simpl; congruence).
    cbn. unfold GoStrconv.ParseBool in *.
    destruct (existsb (String.eqb value) ["1"; "t"; "T"; "TRUE"; "true"; "True"]);
      [exfalso; apply H; reflexivity|].
    destruct (existsb (String.eqb value) ["0"; "f"; "F"; "FALSE"; "false"; "False"]);
      split; reflexivity.
Qed.

Lemma parseDesktopEntry_never_fails_witness :
  scanLine "de_DE.UTF-8" "# a comment line" zeroEntry = zeroEntry
  /\ scanLine "de_DE.UTF-8" "Name=" zeroEntry = zeroEntry
  /\ setKey "de_DE.UTF-8" "GenericName" "Editor" zeroEntry = zeroEntry
  /\ Terminal (setKey "de_DE.UTF-8" "Terminal" "yes" (setTerminal true zeroEntry)) = false
  /\ snd (parseDesktopEntryFile "de_DE.UTF-8" (<["/a.desktop" := "x"]> ∅)
            "a.desktop" "/a.desktop") = None.
Proof.
  destruct (parseDesktopEntry_never_fails "de_DE.UTF-8")
    as (_ & H2 & H3 & H4 & H5 & H6).
  repeat apply conj.
  - apply H3. reflexivity.
  - apply (H4 "Name=" "Name"). vm_compute. reflexivity.
  - apply H5. vm_compute. intuition discriminate.
  - apply (H6 "yes"). vm_compute. discriminate.
  - apply H2. vm_compute. eauto.
Defined.

(** ** The second instance: claim C3 *)

Example Atoi_Itoa_pid : GoStrconv.Atoi (Itoa 4711) = (4711, None).
Proof. vm_compute. reflexivity. Qed.



(** ** The order of strings *)

Lemma ascii_compare_lt_trans a b c :
  Ascii.compare a b = Lt -> Ascii.compare b c = Lt -> Ascii.compare a c = Lt.
Proof. unfold Ascii.compare. rewrite !N.compare_lt_iff. lia. Qed.

Lemma string_compare_lt_trans a b c :
  String.compare a b = Lt -> String.compare b c = Lt -> String.compare a c = Lt.
Proof.
  revert b c. induction a as [|x a IH]; intros [|y b] [|z c]; simpl;
    try discriminate; try reflexivity.
  destruct (Ascii.compare x y) eqn:Hxy; try discriminate;
    destruct (Ascii.compare y z) eqn:Hyz; try discriminate; intros H1 H2.
  - apply Ascii.compare_eq_iff in Hxy, Hyz. subst.
    assert (Ascii.compare z z = Eq) as ->
      by (unfold Ascii.compare; apply N.compare_refl).
    eapply IH; eassumption.
  - apply Ascii.compare_eq_iff in Hxy. subst. rewrite Hyz. reflexivity.
  - apply Ascii.compare_eq_iff in Hyz. subst. rewrite Hxy. reflexivity.
  - rewrite (ascii_compare_lt_trans _ _ _ Hxy Hyz). reflexivity.
Qed.

Lemma string_leb_trans a b c :
  String.leb a b = true -> String.leb b c = true -> String.leb a c = true.
Proof.
  unfold String.leb.
  destruct (String.compare a b) eqn:Hab; try discriminate;
    destruct (String.compare b c) eqn:Hbc; try discriminate; intros _ _.
  - apply String.compare_eq_iff in Hab. subst. rewrite Hbc. reflexivity.
  - apply String.compare_eq_iff in Hab. subst. rewrite Hbc. reflexivity.
  - apply String.compare_eq_iff in Hbc. subst. rewrite Hab. reflexivity.
  - rewrite (string_compare_lt_trans _ _ _ Hab Hbc). reflexivity.
Qed.

Lemma ltb_false_leb a b : String.ltb b a = false <-> String.leb a b = true.
Proof.
  unfold String.ltb, String.leb. rewrite (String.compare_antisym a b).
  destruct (String.compare b a); simpl; split; congruence.
Qed.

Lemma lessNameLoc_false_le a b : lessNameLoc b a = false <-> leNameLoc a b.
Proof. apply ltb_false_leb. Qed.

Lemma lessNameLoc_true_le a b : lessNameLoc a b = true -> leNameLoc a b.
Proof.
  unfold lessNameLoc, leNameLoc, String.ltb, String.leb.
  destruct (String.compare (NameLoc a) (NameLoc b)); congruence.
Qed.

Lemma leNameLoc_trans a b c : leNameLoc a b -> leNameLoc b c -> leNameLoc a c.
Proof. apply string_leb_trans. Qed.

(** ** Insertion sort meets the contract of [sort.Slice] *)

Lemma insertBy_perm less x l : Permutation (x :: l) (insertBy less x l).
Proof.
  induction l as [|y l IH]; simpl; [reflexivity|].
  destruct (less x y); [reflexivity|].
  rewrite perm_swap. apply perm_skip. exact IH.
Qed.

Lemma insertionSort_perm l less : Permutation l (insertionSort l less).
Proof.
  induction l as [|x l IH]; simpl; [reflexivity|].
  rewrite <- insertBy_perm. apply perm_skip. exact IH.
Qed.

Lemma insertBy_sorted x l :
  StronglySorted (fun a b => lessNameLoc b a = false) l ->
  StronglySorted (fun a b => lessNameLoc b a = false) (insertBy lessNameLoc x l).
Proof.
  induction 1 as [|y l Hs IH Hall]; simpl.
  - constructor; constructor.
  - destruct (lessNameLoc x y) eqn:Hxy.
    + constructor; [constructor; assumption|].
      apply lessNameLoc_true_le in Hxy.
      constructor; [apply lessNameLoc_false_le; exact Hxy|].
      eapply List.Forall_impl; [|exact Hall]. intros z Hz. cbv beta in *.
      apply lessNameLoc_false_le. apply lessNameLoc_false_le in Hz.
      eapply leNameLoc_trans; eassumption.
    + constructor; [exact IH|].
      rewrite <- (insertBy_perm lessNameLoc x l).
      constructor; [exact Hxy|exact Hall].
Qed.

Lemma insertionSort_sorted l :
  StronglySorted (fun a b => lessNameLoc b a = false) (insertionSort l lessNameLoc).
Proof.
  induction l as [|x l IH]; simpl; [constructor|]. apply insertBy_sorted, IH.
Qed.

(** ** The scan of the desktop files *)

Section ScanFacts.

Variable LANG : string.
Variable fs : gmap string string.

Lemma DesktopID_setKey name value entry :
  DesktopID (setKey LANG name value entry) = DesktopID entry.
Proof.
  unfold setKey.
  repeat match goal with
         | |- context [if ?b then _ else _] => destruct b; [reflexivity|]
         end.
  reflexivity.
Qed.

Lemma DesktopID_scanEntry lines entry :
  DesktopID (scanEntry LANG lines entry) = DesktopID entry.
Proof.
  revert entry. induction lines as [|l lines IH]; intros entry; simpl; [reflexivity|].
  destruct (otherSection l); [reflexivity|]. rewrite IH. unfold scanLine.
  destruct (parseKeypair l) as [name value].
  destruct (String.eqb value ""); [reflexivity|apply DesktopID_setKey].
Qed.

Lemma DesktopID_parseDesktopEntry id data :
  DesktopID (fst (parseDesktopEntry LANG id data)) = id.
Proof.
  unfold parseDesktopEntry, fillLocalized. cbn [fst].
  set (e := scanEntry LANG (GoBufio.ScanLines data) (setDesktopID id zeroEntry)).
  assert (DesktopID e = id) as He by (unfold e; rewrite DesktopID_scanEntry; reflexivity).
  destruct (String.eqb (NameLoc e) "");
    match goal with |- context [if ?b then _ else _] => destruct b end;
    exact He.
Qed.

Lemma scanFile_duplicate st file :
  is_Some (id2entry st !! GoFilepath.Base file) ->
  scanFile LANG fs st file = countSkipped st.
Proof. intros [e He]. unfold scanFile. rewrite He. reflexivity. Qed.

Lemma scanFile_unopened st file :
  id2entry st !! GoFilepath.Base file = None ->
  fs !! file = None ->
  scanFile LANG fs st file = st.
Proof.
  intros Hid Hfs. unfold scanFile, parseDesktopEntryFile. rewrite Hid, Hfs.
  reflexivity.
Qed.

Lemma scanFile_new st file data :
  id2entry st !! GoFilepath.Base file = None ->
  fs !! file = Some data ->
  let entry := fst (parseDesktopEntry LANG (GoFilepath.Base file) data) in
  scanFile LANG fs st file
  = mkScan (entries st ++ [entry])
      (<[GoFilepath.Base file := entry]> (id2entry st))
      (skipped st)
      (if NoDisplay entry then hidden st + 1 else hidden st).
Proof.
  intros Hid Hfs entry. unfold scanFile, parseDesktopEntryFile. rewrite Hid, Hfs.
  pose proof (DesktopID_parseDesktopEntry (GoFilepath.Base file) data) as HID.
  fold entry in HID.
  destruct (parseDesktopEntry LANG (GoFilepath.Base file) data) as [e err] eqn:Hp.
  assert (err = None) as -> by (unfold parseDesktopEntry in Hp; congruence).
  cbn [fst] in entry. subst entry. rewrite HID. reflexivity.
Qed.

(** The three ways an iteration can go. *)
Lemma scanFile_cases st file :
  (is_Some (id2entry st !! GoFilepath.Base file)
   /\ scanFile LANG fs st file = countSkipped st)
  \/ (id2entry st !! GoFilepath.Base file = None /\ fs !! file = None
      /\ scanFile LANG fs st file = st)
  \/ (exists data,
        id2entry st !! GoFilepath.Base file = None /\ fs !! file = Some data
        /\ scanFile LANG fs st file
           = let entry := fst (parseDesktopEntry LANG (GoFilepath.Base file) data) in
             mkScan (entries st ++ [entry])
               (<[GoFilepath.Base file := entry]> (id2entry st))
               (skipped st)
               (if NoDisplay entry then hidden st + 1 else hidden st)).
Proof.
  destruct (id2entry st !! GoFilepath.Base file) as [e|] eqn:Hid.
  - left. split; [eauto|]. apply scanFile_duplicate. rewrite Hid. eauto.
  - right. destruct (fs !! file) as [data|] eqn:Hfs.
    + right. exists data. repeat split. apply scanFile_new; assumption.
    + left. repeat split. apply scanFile_unopened; assumption.
Qed.

Lemma scanInv_init : scanInv (mkScan [] ∅ 0 0).
Proof.
  split; [|constructor]. intros id. cbn. rewrite lookup_empty. split.
  - intros [? ?]; discriminate.
  - intros [].
Qed.

Lemma scanInv_scanFile st file : scanInv st -> scanInv (scanFile LANG fs st file).
Proof.
  intros [Hdom Hnd].
  destruct (scanFile_cases st file) as [[_ ->]|[(_ & _ & ->)|(data & Hid & _ & ->)]].
  - split; assumption.
  - split; assumption.
  - cbv zeta. set (entry := fst (parseDesktopEntry LANG (GoFilepath.Base file) data)).
    assert (DesktopID entry = GoFilepath.Base file) as HID
      by apply DesktopID_parseDesktopEntry.
    assert (~ In (GoFilepath.Base file) (ids (entries st))) as Hfresh.
    { intros Hin. apply Hdom in Hin. rewrite Hid in Hin.
      destruct Hin as [? ?]; discriminate. }
    split; cbn [entries id2entry]; unfold ids in *; rewrite map_app; cbn [map];
      rewrite HID.
    + intros id. rewrite lookup_insert, in_app_iff. cbn [In].
      destruct (decide (GoFilepath.Base file = id)) as [->|Hne].
      * split; [intros _; right; left; reflexivity|eauto].
      * rewrite Hdom. split; [tauto|]. intros [H|[H|[]]]; [exact H|congruence].
    + apply NoDup_app. repeat split.
      * exact Hnd.
      * intros x Hx Hx'. apply list_elem_of_In in Hx.
        apply list_elem_of_singleton in Hx'. subst x. exact (Hfresh Hx).
      * apply NoDup_singleton.
Qed.

Lemma scanInv_scanFrom st files : scanInv st -> scanInv (scanFrom LANG fs st files).
Proof.
  revert st. induction files as [|f files IH]; intros st H; [exact H|].
  apply IH, scanInv_scanFile, H.
Qed.

Lemma scanFrom_app st pre post :
  scanFrom LANG fs st (pre ++ post)
  = scanFrom LANG fs (scanFrom LANG fs st pre) post.
Proof. apply fold_left_app. Qed.

(** An entry stays, and an identity stays registered. *)
Lemma scanFile_entries st file :
  exists more, entries (scanFile LANG fs st file) = (entries st ++ more)%list.
Proof.
  destruct (scanFile_cases st file) as [[_ ->]|[(_ & _ & ->)|(data & _ & _ & ->)]].
  - exists []. cbn. rewrite app_nil_r. reflexivity.
  - exists []. rewrite app_nil_r. reflexivity.
  - eexists. reflexivity.
Qed.

Lemma scanFrom_entries st files e :
  In e (entries st) -> In e (entries (scanFrom LANG fs st files)).
Proof.
  revert st. induction files as [|f files IH]; intros st H; [exact H|].
  apply IH. destruct (scanFile_entries st f) as [more ->].
  apply in_app_iff. left. exact H.
Qed.

Lemma scanFrom_registered st files id :
  scanInv st ->
  is_Some (id2entry st !! id) ->
  is_Some (id2entry (scanFrom LANG fs st files) !! id).
Proof.
  intros Hinv H. apply (scanInv_scanFrom st files Hinv).
  apply Hinv in H. unfold ids in *. apply in_map_iff in H as (e & <- & He).
  apply in_map. apply scanFrom_entries. exact He.
Qed.

(** A file that opens has its identity registered after its iteration. *)
Lemma scanFile_opened st file :
  is_Some (fs !! file) ->
  is_Some (id2entry (scanFile LANG fs st file) !! GoFilepath.Base file).
Proof.
  intros [data Hdata].
  destruct (scanFile_cases st file) as [[H ->]|[(_ & Hno & _)|(d & _ & _ & ->)]].
  - exact H.
  - congruence.
  - cbn. rewrite lookup_insert_eq. eauto.
Qed.

Lemma scanFrom_opened st files f :
  scanInv st -> In f files -> is_Some (fs !! f) ->
  is_Some (id2entry (scanFrom LANG fs st files) !! GoFilepath.Base f).
Proof.
  revert st. induction files as [|g files IH]; intros st Hinv [].
  - subst g. intros Hf. cbn. apply scanFrom_registered.
    + apply scanInv_scanFile, Hinv.
    + apply scanFile_opened, Hf.
  - intros Hf. cbn. apply IH; [apply scanInv_scanFile, Hinv|assumption|exact Hf].
Qed.

(** An identity is not registered as long as no file with that base name
    opens. *)
Lemma scanFrom_unregistered st files id :
  id2entry st !! id = None ->
  (forall f, In f files -> GoFilepath.Base f = id -> fs !! f = None) ->
  id2entry (scanFrom LANG fs st files) !! id = None.
Proof.
  revert st. induction files as [|g files IH]; intros st Hid Hno; [exact Hid|].
  cbn. apply IH; [|intros f Hf; apply Hno; right; exact Hf].
  destruct (scanFile_cases st g) as [[_ ->]|[(_ & _ & ->)|(data & _ & Hg & ->)]].
  - exact Hid.
  - exact Hid.
  - cbn. rewrite lookup_insert_ne; [exact Hid|].
    intros Heq. rewrite (Hno g (or_introl eq_refl) Heq) in Hg. discriminate.
Qed.

(** Counting one more duplicate commutes with the rest of the loop. *)
Lemma scanFile_countSkipped st file :
  scanFile LANG fs (countSkipped st) file = countSkipped (scanFile LANG fs st file).
Proof.
  unfold scanFile, countSkipped. cbn [id2entry entries skipped hidden].
  destruct (id2entry st !! GoFilepath.Base file); [reflexivity|].
  destruct (parseDesktopEntryFile LANG fs (GoFilepath.Base file) file) as [e [err|]];
    reflexivity.
Qed.

Lemma scanFrom_countSkipped st files :
  scanFrom LANG fs (countSkipped st) files = countSkipped (scanFrom LANG fs st files).
Proof.
  revert st. induction files as [|f files IH]; intros st; [reflexivity|].
  cbn. rewrite scanFile_countSkipped. apply IH.
Qed.

End ScanFacts.

(** ** The index: claims C4 and C5 *)

Lemma setUpAppsFlowBox_filter ToLower l searchPhrase :
  setUpAppsFlowBox ToLower l searchPhrase
  = List.filter (fun e => matchesPhrase ToLower searchPhrase e && visible e) l.
Proof.
  induction l as [|e l IH]; [reflexivity|]. cbn [setUpAppsFlowBox List.filter].
  unfold visible at 1.
  destruct (matchesPhrase ToLower searchPhrase e); cbn [negb andb]; [|exact IH].
  destruct (NoDisplay e); cbn [negb]; rewrite IH; reflexivity.
Qed.

Lemma StronglySorted_filter_list {A} (R : A -> A -> Prop) (p : A -> bool) l :
  StronglySorted R l -> StronglySorted R (List.filter p l).
Proof.
  induction 1 as [|x l Hs IH Hall]; cbn [List.filter]; [constructor|].
  destruct (p x); [|exact IH]. constructor; [exact IH|].
  apply List.Forall_forall. intros y Hy. apply filter_In in Hy as [Hy _].
  revert y Hy. apply List.Forall_forall. exact Hall.
Qed.

Lemma StronglySorted_weaken {A} (R R' : A -> A -> Prop) l :
  (forall a b, R a b -> R' a b) -> StronglySorted R l -> StronglySorted R' l.
Proof.
  intros HR. induction 1 as [|x l Hs IH Hall]; constructor; [exact IH|].
  eapply List.Forall_impl; [|exact Hall]. intros y. apply HR.
Qed.

Lemma Permutation_filter_list {A} (p : A -> bool) (l l' : list A) :
  Permutation l l' -> Permutation (List.filter p l) (List.filter p l').
Proof.
  induction 1 as [|x l l' _ IH|x y l|l l' l'' _ IH1 _ IH2]; cbn [List.filter].
  - reflexivity.
  - destruct (p x); [apply perm_skip|]; exact IH.
  - destruct (p x), (p y); try reflexivity. apply perm_swap.
  - etransitivity; eassumption.
Qed.

Section IndexFacts.

Variable LANG : string.
Variable sortSlice :
  list desktopEntry -> (desktopEntry -> desktopEntry -> bool) -> list desktopEntry.
Variable ToLower : string -> string.
Variable fs : gmap string string.

(** What [sort.Slice] promises: the slice is rearranged, and afterwards no
    element is less than one before it. *)
Hypothesis sortSlice_perm : forall l less, Permutation l (sortSlice l less).
Hypothesis sortSlice_sorted : forall l,
  StronglySorted (fun a b => lessNameLoc b a = false) (sortSlice l lessNameLoc).

Lemma desktopEntries_perm desktopFiles :
  Permutation (entries (scanFiles LANG fs desktopFiles))
    (desktopEntries (parseDesktopFiles LANG sortSlice fs desktopFiles)).
Proof using sortSlice_perm. apply sortSlice_perm. Qed.

(** C4: after a refresh, the query with the empty phrase returns the
    entries of the index with [NoDisplay=false], all of them and in the order
    of the index, which is ascending in the localized name; they are the
    visible ones among the entries that the scan found.  Whatever the phrase,
    an entry that the query returns is an entry of the index with
    [NoDisplay=false]. *)
Theorem query_returns_visible_sorted desktopFiles :
  let r := parseDesktopFiles LANG sortSlice fs desktopFiles in
  setUpAppsFlowBox ToLower (desktopEntries r) "" = List.filter visible (desktopEntries r)
  /\ Permutation (setUpAppsFlowBox ToLower (desktopEntries r) "")
       (List.filter visible (entries (scanFiles LANG fs desktopFiles)))
  /\ StronglySorted leNameLoc (setUpAppsFlowBox ToLower (desktopEntries r) "")
  /\ (forall searchPhrase e,
        In e (setUpAppsFlowBox ToLower (desktopEntries r) searchPhrase) ->
        NoDisplay e = false /\ In e (desktopEntries r)).
Proof using sortSlice_perm sortSlice_sorted.
  intros r.
  assert (setUpAppsFlowBox ToLower (desktopEntries r) ""
          = List.filter visible (desktopEntries r)) as Hq.
  { rewrite setUpAppsFlowBox_filter. apply filter_ext. intros e. reflexivity. }
  repeat apply conj.
  - exact Hq.
  - rewrite Hq. apply Permutation_filter_list. symmetry.
    apply desktopEntries_perm.
  - rewrite Hq. apply StronglySorted_filter_list.
    eapply StronglySorted_weaken; [|apply sortSlice_sorted].
    intros a b H. apply lessNameLoc_false_le. exact H.
  - intros searchPhrase e He. rewrite setUpAppsFlowBox_filter in He.
    apply filter_In in He as [Hin Hp]. apply andb_true_iff in Hp as [_ Hv].
    split; [|exact Hin]. unfold visible in Hv. destruct (NoDisplay e);
      [discriminate|reflexivity].
Qed.

End IndexFacts.

Lemma NoDup_map_In_eq {A B} (f : A -> B) (l : list A) a b :
  NoDup (map f l) -> In a l -> In b l -> f a = f b -> a = b.
Proof.
  induction l as [|x l IH]; [intros _ []|].
  cbn [map]. intros Hnd Ha Hb Hf. apply NoDup_cons in Hnd as [Hx Hnd].
  assert (forall y, In y l -> f y <> f x) as Hfresh.
  { intros y Hy Heq. apply Hx. rewrite <- Heq.
    apply list_elem_of_In, in_map, Hy. }
  destruct Ha as [<-|Ha], Hb as [<-|Hb].
  - reflexivity.
  - exfalso. exact (Hfresh b Hb (eq_sym Hf)).
  - exfalso. exact (Hfresh a Ha Hf).
  - exact (IH Hnd Ha Hb Hf).
Qed.

(** C5, as the specification states it, fails when the first file with a
    base name does not open: it is passed over without being registered, the
    later file with the same base name is parsed and indexed, and no
    duplicate is counted. *)
Lemma scan_duplicate_counterexample :
  let fs : gmap string string := <["/b/x.desktop" := "Name=B"]> ∅ in
  let desktopFiles := ["/a/x.desktop"; "/b/x.desktop"] in
  let r := parseDesktopFiles "C" insertionSort fs desktopFiles in
  GoFilepath.Base "/a/x.desktop" = GoFilepath.Base "/b/x.desktop"
  /\ fs !! "/a/x.desktop" = None
  /\ desktopEntries r = [fst (parseDesktopEntry "C" "x.desktop" "Name=B")]
  /\ map Name (desktopEntries r) = ["B"]
  /\ logSkipped r = 0
  /\ logSkipped r <> 1.
Proof. repeat split; try (vm_compute; reflexivity). vm_compute. discriminate. Qed.

Section IndexDuplicates.

Variable LANG : string.
Variable sortSlice :
  list desktopEntry -> (desktopEntry -> desktopEntry -> bool) -> list desktopEntry.
Variable fs : gmap string string.

Hypothesis sortSlice_perm : forall l less, Permutation l (sortSlice l less).

(** C5, amended: in every refresh the identities of the index are unique.
    The first file with a given base name that opens, in the order of the
    listing, wins: its entry is in the index and is the only one with that
    identity.  Every later file with the same base name adds exactly one to
    the count of skipped duplicates and changes nothing else: the index, the
    summary and the count of hidden entries are those of the listing
    without that file.  A file that does not open, met before any file of
    its base name was registered, leaves the variables of the scan as they
    were, so it does not stand in the way of a later file. *)
Theorem scan_keeps_first_opened_file desktopFiles :
  let r := parseDesktopFiles LANG sortSlice fs desktopFiles in
  NoDup (ids (desktopEntries r))
  /\ (forall pre file post data,
        desktopFiles = (pre ++ file :: post)%list ->
        fs !! file = Some data ->
        (forall f, In f pre -> GoFilepath.Base f = GoFilepath.Base file ->
                   fs !! f = None) ->
        let entry := fst (parseDesktopEntry LANG (GoFilepath.Base file) data) in
        In entry (desktopEntries r)
        /\ forall e, In e (desktopEntries r) ->
                     DesktopID e = GoFilepath.Base file -> e = entry)
  /\ (forall pre file post f,
        desktopFiles = (pre ++ file :: post)%list ->
        In f pre -> GoFilepath.Base f = GoFilepath.Base file ->
        is_Some (fs !! f) ->
        let r0 := parseDesktopFiles LANG sortSlice fs (pre ++ post) in
        desktopEntries r = desktopEntries r0
        /\ logSkipped r = logSkipped r0 + 1
        /\ logHidden r = logHidden r0
        /\ summary r = summary r0)
  /\ (forall st file,
        id2entry st !! GoFilepath.Base file = None ->
        fs !! file = None ->
        scanFile LANG fs st file = st).
Proof using sortSlice_perm.
  intros r.
  assert (NoDup (ids (desktopEntries r))) as Hnd.
  { unfold ids, r, parseDesktopFiles. cbn [desktopEntries].
    rewrite <- (sortSlice_perm (entries (scanFiles LANG fs desktopFiles)) lessNameLoc).
    apply (scanInv_scanFrom LANG fs _ desktopFiles scanInv_init). }
  split; [exact Hnd|]. split; [|split; [|apply scanFile_unopened]].
  - intros pre file post data -> Hdata Hpre entry.
    assert (In entry (desktopEntries r)) as Hin.
    { unfold r, parseDesktopFiles. cbn [desktopEntries].
      apply (Permutation_in _ (sortSlice_perm _ _)).
      unfold scanFiles. change (fold_left (scanFile LANG fs)) with
        (fun l st => scanFrom LANG fs st l). cbv beta.
      rewrite scanFrom_app. cbn [scanFrom fold_left].
      apply (scanFrom_entries LANG fs _ post).
      rewrite (scanFile_new LANG fs _ file data); [|apply scanFrom_unregistered;
        [apply lookup_empty|exact Hpre]|exact Hdata].
      cbn [entries]. apply in_app_iff. right. left. reflexivity. }
    split; [exact Hin|]. intros e He HID.
    apply (NoDup_map_In_eq DesktopID (desktopEntries r)); try assumption.
    rewrite HID. symmetry. apply DesktopID_parseDesktopEntry.
  - intros pre file post f -> Hf Hbase Hopen r0.
    assert (scanFiles LANG fs (pre ++ file :: post)
            = countSkipped (scanFiles LANG fs (pre ++ post))) as Hscan.
    { unfold scanFiles. change (fold_left (scanFile LANG fs)) with
        (fun l st => scanFrom LANG fs st l). cbv beta.
      rewrite !scanFrom_app. cbn [scanFrom fold_left].
      rewrite scanFile_duplicate.
      - apply scanFrom_countSkipped.
      - rewrite <- Hbase. apply scanFrom_opened; [apply scanInv_init|exact Hf|exact Hopen]. }
    unfold r, r0, parseDesktopFiles. rewrite Hscan. repeat split.
Qed.

End IndexDuplicates.

Example exampleFs_refresh :
  let r := parseDesktopFiles "en_US.UTF-8" insertionSort exampleFs exampleFiles in
  (map Name (desktopEntries r), summary r, logSkipped r, logHidden r,
   map Name (setUpAppsFlowBox asciiToLower (desktopEntries r) ""),
   map Name (setUpAppsFlowBox asciiToLower (desktopEntries r) "VI"),
   map Name (setUpAppsFlowBox asciiToLower (desktopEntries r) "print"))
  = (["Foot"; "Printing"; "Vim"], "2 entries (+1 hidden)", 1, 1,
     ["Foot"; "Vim"], ["Vim"], []).
Proof. vm_compute. reflexivity. Qed.

Lemma query_returns_visible_sorted_witness :
  let r := parseDesktopFiles "en_US.UTF-8" insertionSort exampleFs exampleFiles in
  setUpAppsFlowBox asciiToLower (desktopEntries r) "" = List.filter visible (desktopEntries r)
  /\ Permutation (setUpAppsFlowBox asciiToLower (desktopEntries r) "")
       (List.filter visible (entries (scanFiles "en_US.UTF-8" exampleFs exampleFiles)))
  /\ StronglySorted leNameLoc (setUpAppsFlowBox asciiToLower (desktopEntries r) "")
  /\ (forall searchPhrase e,
        In e (setUpAppsFlowBox asciiToLower (desktopEntries r) searchPhrase) ->
        NoDisplay e = false /\ In e (desktopEntries r)).
Proof.
  exact (query_returns_visible_sorted "en_US.UTF-8" insertionSort asciiToLower
           exampleFs insertionSort_perm insertionSort_sorted exampleFiles).
Defined.

Lemma scan_keeps_first_opened_file_witness :
  let r := parseDesktopFiles "en_US.UTF-8" insertionSort exampleFs exampleFiles in
  let r0 := parseDesktopFiles "en_US.UTF-8" insertionSort exampleFs
              (firstn 3 exampleFiles ++ []) in
  NoDup (ids (desktopEntries r))
  /\ In (fst (parseDesktopEntry "en_US.UTF-8" "vim.desktop"
               (unlines ["[Desktop Entry]"; "Name=Vim"; "Exec=vim %F"; "Terminal=true"])))
        (desktopEntries r)
  /\ desktopEntries r = desktopEntries r0
  /\ logSkipped r = logSkipped r0 + 1
  /\ logHidden r = logHidden r0
  /\ summary r = summary r0.
Proof.
  intros r r0.
  destruct (scan_keeps_first_opened_file "en_US.UTF-8" insertionSort exampleFs
              insertionSort_perm exampleFiles) as (H1 & H2 & H3 & _).
  split; [exact H1|]. split.
  - apply (H2 [] "/home/u/.local/share/applications/vim.desktop"
              (skipn 1 exampleFiles)
              (unlines ["[Desktop Entry]"; "Name=Vim"; "Exec=vim %F"; "Terminal=true"])).
    + reflexivity.
    + vm_compute. reflexivity.
    + intros f [].
  - apply (H3 (firstn 3 exampleFiles) "/usr/share/applications/vim.desktop" []
              "/home/u/.local/share/applications/vim.desktop").
    + reflexivity.
    + left. reflexivity.
    + vm_compute. reflexivity.
    + vm_compute. eauto.
Defined.

(** ** The rest of the program *)

Example Clean_examples :
  map GoFilepath.Clean
    ["/usr/local/share//applications"; "a/../.."; "/../a"; "a/b/../c/."; "";
     "/"; "//"; "./"; "../../x/"; "a/.."]
  = ["/usr/local/share/applications"; ".."; "/a"; "a/c"; "."; "/"; "/"; ".";
     "../../x"; "."].
Proof. vm_compute. reflexivity. Qed.

Example Join_examples :
  map GoFilepath.Join
    [["/usr/share/"; "applications"]; [""; "applications"]; [""; ""];
     ["/home/u"; ".local/share/applications"]; ["/tmp"; "wlaunchpad.lock"]]
  = ["/usr/share/applications"; "applications"; "";
     "/home/u/.local/share/applications"; "/tmp/wlaunchpad.lock"].
Proof. vm_compute. reflexivity. Qed.

Example HasSuffix_examples :
  map (fun s => GoStrings.HasSuffix s ".svg") ["a.svg"; ".svg"; "svg"; "a.svg.png"; ""]
  = [true; true; false; false; false].
Proof. vm_compute. reflexivity. Qed.

(** ** More on the command interpreter *)

Lemma Join_splitByte sep s :
  GoStrings.Join (splitByte sep s) (String sep EmptyString) = s.
Proof.
  induction s as [|a s IH]; [reflexivity|]. cbn [splitByte].
  destruct (Ascii.eqb sep a) eqn:E.
  - apply Ascii.eqb_eq in E. subst a.
    destruct (splitByte sep s) as [|t ts] eqn:Hs.
    + exfalso. eapply splitByte_nonempty. exact Hs.
    + cbn [GoStrings.Join]. cbn [GoStrings.Join] in IH. rewrite IH. reflexivity.
  - destruct (splitByte sep s) as [|t ts] eqn:Hs.
    + exfalso. eapply splitByte_nonempty. exact Hs.
    + destruct ts as [|u ts]; cbn [GoStrings.Join] in *.
      * rewrite IH. reflexivity.
      * rewrite append_String, IH. reflexivity.
Qed.

Lemma hasByte_substring_before c s n k :
  indexByte c s = Some n -> (k <= n)%nat ->
  hasByte c (String.substring 0 k s) = false.
Proof.
  revert n k. induction s as [|a s IH]; intros n k; cbn [indexByte]; [discriminate|].
  destruct (Ascii.eqb c a) eqn:E.
  - intros [= <-] Hk. assert (k = 0%nat) as -> by lia. reflexivity.
  - destruct (indexByte c s) as [m|]; cbn [option_map]; [|discriminate].
    intros [= <-] Hk. destruct k as [|k]; [reflexivity|].
    cbn [String.substring hasByte]. rewrite E. apply (IH m); [reflexivity|lia].
Qed.

Lemma trimPlaceholder_no_placeholder command c :
  trimPlaceholder command = Some c -> hasByte "%" c = false.
Proof.
  rewrite trimPlaceholder_spec.
  destruct (indexByte "%" command) as [[|k]|] eqn:Hk; [discriminate| |].
  - intros [= <-]. apply (hasByte_substring_before _ _ _ _ Hk). lia.
  - intros [= <-]. rewrite hasByte_indexByte, Hk. reflexivity.
Qed.

Lemma tokens_without_byte c command item :
  c <> " "%char -> hasByte c command = false ->
  In item (GoStrings.Split command " ") -> hasByte c item = false.
Proof.
  intros Hne Hc Hin. rewrite Split_byte in Hin.
  rewrite (hasByte_splitByte c " ") in Hc by exact Hne.
  destruct (hasByte c item) eqn:E; [|reflexivity].
  assert (existsb (hasByte c) (splitByte " " command) = true)
    by (apply existsb_exists; eauto).
  congruence.
Qed.

Lemma In_drop {A} (n : nat) (l : list A) x : In x (drop n l) -> In x l.
Proof.
  revert l. induction n as [|n IH]; intros [|y l]; cbn; try tauto.
  intros H. right. apply IH. exact H.
Qed.

(** [launch] panics on the templates that start with [%] and on no other
    template: every index and slice expression after the truncation is
    within bounds. *)
Theorem launch_panics_exactly_on_leading_placeholder
  term daemon environ command terminal :
  launch term daemon environ command terminal = None
  <-> GoStrings.HasPrefix command "%" = true.
Proof.
  unfold launch, GoStrings.HasPrefix. rewrite trimPlaceholder_spec, prefix_byte.
  destruct command as [|a s]; cbn [indexByte].
  - destruct (launchElements_spec term daemon environ "" terminal) as (n & _ & H).
    cbn [mbind option_bind]. rewrite H. split; discriminate.
  - destruct (Ascii.eqb "%" a); [split; reflexivity|].
    destruct (indexByte "%" s) as [k|]; cbn [option_map mbind option_bind].
    + destruct (launchElements_spec term daemon environ
                  (String.substring 0 k (String a s)) terminal) as (n & _ & H).
      rewrite H. split; discriminate.
    + destruct (launchElements_spec term daemon environ (String a s) terminal)
        as (n & _ & H).
      rewrite H. split; discriminate.
Qed.

(** No field code reaches the started program: in a launch without
    terminal, no element of the argument vector holds a [%]. *)
Theorem launch_leaves_no_placeholder term daemon environ command cmd ui :
  launch term daemon environ command false = Some (cmd, ui) ->
  Forall (fun a => GoStrings.Contains a "%" = false) (Args cmd).
Proof.
  unfold launch. destruct (trimPlaceholder command) as [c|] eqn:Htrim;
    [|discriminate].
  cbn [mbind option_bind].
  destruct (launchElements_spec term daemon environ c false) as (name & Hname & ->).
  intros [= <- _]. cbn [Args].
  pose proof (trimPlaceholder_no_placeholder _ _ Htrim) as Hc.
  apply List.Forall_forall. intros a Ha. rewrite Contains_hasByte.
  apply (tokens_without_byte "%" c); [discriminate|exact Hc|].
  destruct Ha as [<-|Ha].
  - apply list_elem_of_In. eapply list_elem_of_lookup_2. exact Hname.
  - apply (In_drop _ _ _ Ha).
Qed.

Lemma launch_leaves_no_placeholder_witness :
  Forall (fun a => GoStrings.Contains a "%" = false)
    ["gimp"; "--new-instance"].
Proof.
  exact (launch_leaves_no_placeholder "foot" false [] "gimp --new-instance %U"
           {| Path := "gimp"; Args := ["gimp"; "--new-instance"]; Env := None |}
           MainQuit eq_refl).
Defined.

(** A template without [=], once truncated to [c], is started as it is
    split: the argument vector is [strings.Split(c, " ")], token 0 is the
    program even when it starts with [-], the environment is inherited, and
    joining the argument vector with spaces gives [c] back (so two spaces
    in a row make an empty argument). *)
Theorem launch_without_assignment_runs_tokens term daemon environ command c :
  trimPlaceholder command = Some c ->
  GoStrings.Contains c "=" = false ->
  launch term daemon environ command false
  = Some ({| Path := hd "" (GoStrings.Split c " ");
             Args := GoStrings.Split c " ";
             Env := None |},
          if daemon then WinHide else MainQuit)
  /\ GoStrings.Join (GoStrings.Split c " ") " " = c.
Proof.
  intros Htrim Hc. split; [|rewrite Split_byte; apply Join_splitByte].
  rewrite (launch_after_trim _ _ _ _ _ _ Htrim).
  destruct (launchElements_spec term daemon environ c false) as (name & Hname & ->).
  assert (executableIndex c = 0%nat) as Hidx
    by (unfold executableIndex; rewrite Hc; reflexivity).
  rewrite Hidx in *. rewrite (envOverrides_nil _ Hc).
  destruct (GoStrings.Split c " ") as [|t ts]; [discriminate|].
  cbn in Hname. injection Hname as ->. reflexivity.
Qed.

Lemma launch_without_assignment_runs_tokens_witness :
  launch "foot" true [] "-x  a %f" false
  = Some ({| Path := "-x"; Args := ["-x"; ""; "a"]; Env := None |}, WinHide)
  /\ GoStrings.Join ["-x"; ""; "a"] " " = "-x  a".
Proof.
  exact (launch_without_assignment_runs_tokens "foot" true [] "-x  a %f" "-x  a"
           eq_refl eq_refl).
Defined.

(** ** More on the entry parser *)

Lemma substring_skip_app a b n :
  String.substring (String.length a) n (a ++ b)%string = String.substring 0 n b.
Proof. induction a as [|x a IH]; [reflexivity|]. rewrite append_String. exact IH. Qed.

Lemma substring_all s : String.substring 0 (String.length s) s = s.
Proof. induction s as [|x s IH]; [reflexivity|]. cbn. rewrite IH. reflexivity. Qed.

(** [parseKeypair] splits at the first [=] and trims both sides, so that a
    value may hold further [=]; a line without [=] and a line that starts
    with [=] come back whole, with an empty value. *)
Theorem parseKeypair_splits_at_first_equals :
  (forall k v,
     k <> "" -> GoStrings.Contains k "=" = false ->
     parseKeypair (k ++ "=" ++ v)%string
     = (GoStrings.TrimSpace k, GoStrings.TrimSpace v))
  /\ (forall l, GoStrings.Contains l "=" = false -> parseKeypair l = (l, ""))
  /\ (forall l, parseKeypair (String "=" l) = (String "=" l, "")).
Proof.
  repeat apply conj.
  - intros k v Hk Hc. rewrite Contains_hasByte in Hc. unfold parseKeypair.
    change ("=" ++ v)%string with (String "=" v).
    rewrite Index_byte, (indexByte_app "=" k v Hc).
    assert (0 < String.length k)%nat as Hlen
      by (destruct k; [congruence|cbn [String.length]; lia]).
    Ztrue (0 <? Z.of_nat (String.length k)).
    rewrite Nat2Z.id, substring_0_app.
    replace (Z.to_nat (Z.of_nat (String.length k) + 1))
      with (String.length (k ++ String "=" EmptyString)%string)
      by (rewrite string_length_app; cbn [String.length]; lia).
    rewrite <- (append_snoc_cons k "=" v), substring_skip_app.
    rewrite !string_length_app.
    replace (String.length k + String.length "=" + String.length v
             - (String.length k + String.length "="))%nat
      with (String.length v) by lia.
    rewrite substring_all. reflexivity.
  - intros l Hc. unfold parseKeypair. unfold GoStrings.Contains in Hc.
    apply Z.leb_gt in Hc. Zfalse (0 <? GoStrings.Index l "="). reflexivity.
  - intros l. unfold parseKeypair. rewrite Index_byte. reflexivity.
Qed.

Lemma parseKeypair_splits_at_first_equals_witness :
  parseKeypair "Exec = env A=1 cmd " = ("Exec", "env A=1 cmd")
  /\ parseKeypair "# comment" = ("# comment", "").
Proof.
  destruct parseKeypair_splits_at_first_equals as (H1 & H2 & _). split.
  - exact (H1 "Exec " " env A=1 cmd " ltac:(discriminate) eq_refl).
  - exact (H2 "# comment" eq_refl).
Defined.

Lemma scanEntry_app_through LANG pre post entry :
  Forall (fun l => otherSection l = false) pre ->
  scanEntry LANG (pre ++ post) entry
  = scanEntry LANG post (scanEntry LANG pre entry).
Proof.
  intros H. revert entry. induction H as [|l pre Hl _ IH]; intros entry;
    [reflexivity|].
  cbn [app scanEntry]. rewrite Hl. apply IH.
Qed.

Lemma Name_setKey LANG name value entry :
  value <> "" -> Name entry <> "" -> Name (setKey LANG name value entry) <> "".
Proof.
  intros Hv He. unfold setKey.
  repeat match goal with
         | |- context [if ?b then _ else _] => destruct b; [assumption|]
         end.
  exact He.
Qed.

Lemma Name_scanEntry LANG lines entry :
  Name entry <> "" -> Name (scanEntry LANG lines entry) <> "".
Proof.
  revert entry. induction lines as [|l lines IH]; intros entry He; cbn [scanEntry];
    [exact He|].
  destruct (otherSection l); [exact He|]. apply IH. unfold scanLine.
  destruct (parseKeypair l) as [name value].
  destruct (String.eqb_spec value ""); [exact He|].
  apply Name_setKey; assumption.
Qed.

(** A descriptor with a [Name] line of non-empty value in its primary
    section has a non-empty name and, whatever the locale and the other
    lines, a non-empty localized name: the name the index is sorted by and
    the buttons are labelled with. *)
Theorem named_entry_has_display_name LANG id data pre l post value :
  GoBufio.ScanLines data = (pre ++ l :: post)%list ->
  Forall (fun x => otherSection x = false) pre ->
  otherSection l = false ->
  parseKeypair l = ("Name", value) ->
  value <> "" ->
  Name (fst (parseDesktopEntry LANG id data)) <> ""
  /\ NameLoc (fst (parseDesktopEntry LANG id data)) <> "".
Proof.
  intros Hlines Hpre Hl Hkp Hv.
  assert (Name (scanEntry LANG (GoBufio.ScanLines data) (setDesktopID id zeroEntry))
          <> "") as HName.
  { rewrite Hlines, (scanEntry_app_through _ _ _ _ Hpre). cbn [scanEntry].
    rewrite Hl. apply Name_scanEntry. unfold scanLine. rewrite Hkp.
    destruct (String.eqb_spec value ""); [contradiction|]. exact Hv. }
  unfold parseDesktopEntry, fillLocalized. cbn [fst].
  set (e := scanEntry LANG (GoBufio.ScanLines data) (setDesktopID id zeroEntry)) in *.
  destruct (String.eqb_spec (NameLoc e) "") as [Hloc|Hloc];
    match goal with |- context [if ?b then _ else _] => destruct b end;
    cbn; split; assumption.
Qed.

Lemma named_entry_has_display_name_witness :
  Name (fst (parseDesktopEntry "ja_JP.UTF-8" "a.desktop"
               (unlines ["[Desktop Entry]"; "Name[de]=Rechner"; "Name=Calc"; "Name="])))
  <> ""
  /\ NameLoc (fst (parseDesktopEntry "ja_JP.UTF-8" "a.desktop"
               (unlines ["[Desktop Entry]"; "Name[de]=Rechner"; "Name=Calc"; "Name="])))
     <> "".
Proof.
  apply (named_entry_has_display_name "ja_JP.UTF-8" "a.desktop" _
           ["[Desktop Entry]"; "Name[de]=Rechner"] "Name=Calc" ["Name="] "Calc").
  - reflexivity.
  - repeat constructor.
  - reflexivity.
  - reflexivity.
  - discriminate.
Defined.

Lemma untilTooLong_stops pre l rest :
  GoBufio.fits l = false ->
  GoBufio.untilTooLong (pre ++ l :: rest) = GoBufio.untilTooLong pre.
Proof.
  intros Hl. induction pre as [|x pre IH]; cbn [app GoBufio.untilTooLong].
  - rewrite Hl. reflexivity.
  - destruct (GoBufio.fits x); [rewrite IH|]; reflexivity.
Qed.

(** A line of [bufio.MaxScanTokenSize] bytes or more ends the parse without
    an error: the descriptor is that of the lines before it. *)
Theorem parse_ends_at_line_too_long LANG id pre l tail :
  Forall (fun x => hasByte LF x = false) pre ->
  hasByte LF l = false ->
  (GoBufio.MaxScanTokenSize <= N.of_nat (String.length l))%N ->
  parseDesktopEntry LANG id (unlines pre ++ l ++ String LF tail)%string
  = parseDesktopEntry LANG id (unlines pre)
  /\ snd (parseDesktopEntry LANG id (unlines pre ++ l ++ String LF tail)%string) = None.
Proof.
  intros Hpre Hl Hlong. split; [|reflexivity].
  assert (GoBufio.fits l = false) as Hfits
    by (unfold GoBufio.fits; apply N.ltb_ge; exact Hlong).
  unfold parseDesktopEntry. do 2 f_equal.
  rewrite (ScanLines_unlines pre _ Hpre), (rawLines_line _ _ Hl).
  rewrite (untilTooLong_stops _ _ _ Hfits).
  rewrite <- (append_empty_r (unlines pre)).
  rewrite (ScanLines_unlines pre "" Hpre). cbn [GoBufio.rawLines].
  rewrite app_nil_r. reflexivity.
Qed.

Lemma hasByte_replicateByte c a n : c <> a -> hasByte c (replicateByte n a) = false.
Proof.
  intros Hne. induction n as [|n IH]; [reflexivity|]. cbn.
  rewrite IH, orb_false_r. apply Ascii.eqb_neq. exact Hne.
Qed.

Lemma length_replicateByte n a : String.length (replicateByte n a) = n.
Proof. induction n as [|n IH]; [reflexivity|]. cbn. rewrite IH. reflexivity. Qed.

Lemma parse_ends_at_line_too_long_witness :
  parseDesktopEntry "C" "a.desktop"
    (unlines ["Name=A"] ++ replicateByte (N.to_nat GoBufio.MaxScanTokenSize) "#" ++ String LF "Exec=a")%string
  = parseDesktopEntry "C" "a.desktop" (unlines ["Name=A"])
  /\ snd (parseDesktopEntry "C" "a.desktop"
            (unlines ["Name=A"] ++ replicateByte (N.to_nat GoBufio.MaxScanTokenSize) "#" ++ String LF "Exec=a")%string)
     = None.
Proof.
  apply (parse_ends_at_line_too_long "C" "a.desktop" ["Name=A"]
           (replicateByte (N.to_nat GoBufio.MaxScanTokenSize) "#") "Exec=a").
  - repeat constructor.
  - apply hasByte_replicateByte. discriminate.
  - rewrite length_replicateByte, N2Nat.id. apply N.le_refl.
Defined.

Lemma dropCR_withCR l : GoBufio.dropCR (withCR l) = l.
Proof.
  unfold withCR. induction l as [|x l IH]; [reflexivity|].
  rewrite append_String. cbn [GoBufio.dropCR].
  destruct (l ++ String CR "")%string eqn:E.
  - destruct l; discriminate.
  - rewrite IH. reflexivity.
Qed.

Lemma dropCR_no_CR l : hasByte CR l = false -> GoBufio.dropCR l = l.
Proof.
  induction l as [|x l IH]; [reflexivity|]. cbn [hasByte].
  intros H. apply orb_false_iff in H as [Hx Hl]. cbn [GoBufio.dropCR].
  destruct l as [|y l].
  - rewrite Ascii.eqb_sym in Hx. change "013"%char with CR. rewrite Hx. reflexivity.
  - rewrite (IH Hl). reflexivity.
Qed.

Lemma untilTooLong_all lines :
  Forall (fun l => GoBufio.fits l = true) lines -> GoBufio.untilTooLong lines = lines.
Proof.
  induction 1 as [|l lines Hl _ IH]; [reflexivity|].
  cbn [GoBufio.untilTooLong]. rewrite Hl, IH. reflexivity.
Qed.

Lemma fits_withCR l : GoBufio.fits (withCR l) = true -> GoBufio.fits l = true.
Proof.
  unfold GoBufio.fits, withCR. rewrite string_length_app. cbn [String.length].
  rewrite !N.ltb_lt. lia.
Qed.

(** DOS line ends are accepted: when every line, with its carriage return,
    fits the buffer of the scanner, the text with a carriage return and a
    line feed after each line is scanned into the same lines and parsed into
    the same descriptor as the text with a line feed after each line. *)
Theorem parse_accepts_DOS_line_ends LANG id lines :
  Forall (fun l => hasByte LF l = false /\ hasByte CR l = false
                   /\ GoBufio.fits (withCR l) = true) lines ->
  GoBufio.ScanLines (unlines (map withCR lines)) = lines
  /\ GoBufio.ScanLines (unlines lines) = lines
  /\ parseDesktopEntry LANG id (unlines (map withCR lines))
     = parseDesktopEntry LANG id (unlines lines).
Proof.
  intros H.
  assert (GoBufio.ScanLines (unlines (map withCR lines)) = lines) as H1.
  { rewrite <- (append_empty_r (unlines _)), ScanLines_unlines.
    - cbn [GoBufio.rawLines]. rewrite app_nil_r, untilTooLong_all.
      + rewrite map_map. rewrite <- (map_id lines) at 2. apply map_ext.
        apply dropCR_withCR.
      + apply List.Forall_forall. intros x Hx. apply in_map_iff in Hx as (l & <- & Hl).
        rewrite List.Forall_forall in H. apply (H l Hl).
    - apply List.Forall_forall. intros x Hx. apply in_map_iff in Hx as (l & <- & Hl).
      rewrite List.Forall_forall in H. destruct (H l Hl) as (HLF & _ & _).
      unfold withCR. rewrite hasByte_app, HLF. reflexivity. }
  assert (GoBufio.ScanLines (unlines lines) = lines) as H2.
  { rewrite <- (append_empty_r (unlines _)), ScanLines_unlines.
    - cbn [GoBufio.rawLines]. rewrite app_nil_r, untilTooLong_all.
      + rewrite <- (map_id lines) at 2. apply map_ext_in. intros l Hl.
        rewrite List.Forall_forall in H. apply dropCR_no_CR, (H l Hl).
      + eapply List.Forall_impl; [|exact H]. intros l (_ & _ & Hf).
        apply fits_withCR, Hf.
    - eapply List.Forall_impl; [|exact H]. intros l (HLF & _). exact HLF. }
  split; [exact H1|]. split; [exact H2|].
  unfold parseDesktopEntry. rewrite H1, H2. reflexivity.
Qed.

Lemma parse_accepts_DOS_line_ends_witness :
  GoBufio.ScanLines (unlines (map withCR ["[Desktop Entry]"; "Name=Foo"]))
  = ["[Desktop Entry]"; "Name=Foo"]
  /\ GoBufio.ScanLines (unlines ["[Desktop Entry]"; "Name=Foo"])
     = ["[Desktop Entry]"; "Name=Foo"]
  /\ parseDesktopEntry "C" "a.desktop" (unlines (map withCR ["[Desktop Entry]"; "Name=Foo"]))
     = parseDesktopEntry "C" "a.desktop" (unlines ["[Desktop Entry]"; "Name=Foo"]).
Proof.
  apply (parse_accepts_DOS_line_ends "C" "a.desktop" ["[Desktop Entry]"; "Name=Foo"]).
  repeat constructor.
Defined.

(** ** More on the index *)

Section ScanCounts.

Variable LANG : string.
Variable fs : gmap string string.

(** The counter [hidden] is the number of entries with [NoDisplay]. *)
Lemma hidden_scanFrom st files :
  hidden st = Z.of_nat (List.length (List.filter NoDisplay (entries st))) ->
  hidden (scanFrom LANG fs st files)
  = Z.of_nat (List.length
                (List.filter NoDisplay (entries (scanFrom LANG fs st files)))).
Proof.
  revert st. induction files as [|f files IH]; intros st H; [exact H|].
  cbn [scanFrom fold_left]. apply IH.
  destruct (scanFile_cases LANG fs st f)
    as [[_ ->]|[(_ & _ & ->)|(data & _ & _ & ->)]]; [exact H|exact H|].
  cbv zeta. cbn [entries hidden]. rewrite List.filter_app, length_app.
  cbn [List.filter].
  destruct (NoDisplay (fst (parseDesktopEntry LANG (GoFilepath.Base f) data)));
    cbn [List.length]; lia.
Qed.

(** Every file of the listing is indexed, counted as a duplicate, or
    passed over because it does not open. *)
Lemma counts_scanFrom st files :
  let st' := scanFrom LANG fs st files in
  GoSlice.len (entries st') + skipped st'
  <= GoSlice.len (entries st) + skipped st + GoSlice.len files
  /\ (Forall (fun f => is_Some (fs !! f)) files ->
      GoSlice.len (entries st') + skipped st'
      = GoSlice.len (entries st) + skipped st + GoSlice.len files).
Proof.
  revert st. induction files as [|f files IH]; intros st; cbn zeta.
  - unfold GoSlice.len. cbn. split; [lia|intros _; lia].
  - cbn [scanFrom fold_left]. specialize (IH (scanFile LANG fs st f)).
    cbn zeta in IH. destruct IH as [IH1 IH2].
    fold (scanFrom LANG fs (scanFile LANG fs st f) files) in *.
    assert (GoSlice.len (f :: files) = 1 + GoSlice.len files) as ->
      by (unfold GoSlice.len; cbn [List.length]; lia).
    destruct (scanFile_cases LANG fs st f)
      as [[_ E]|[(_ & Hno & E)|(data & _ & _ & E)]]; rewrite E in *.
    + cbn [entries skipped countSkipped] in *. split; [lia|].
      intros H. apply Forall_cons in H as [_ H]. specialize (IH2 H). lia.
    + split; [lia|]. intros H. apply Forall_cons in H as [[? Hf] _]. congruence.
    + cbv zeta in *. cbn [entries skipped] in *.
      unfold GoSlice.len in *. rewrite length_app in *. cbn [List.length] in *.
      split; [lia|]. intros H. apply Forall_cons in H as [_ H].
      specialize (IH2 H). lia.
Qed.

(** An entry of the scan is the descriptor of a file of the listing that
    opens, under the base name of that file. *)
Lemma origin_scanFrom st files e :
  In e (entries (scanFrom LANG fs st files)) ->
  In e (entries st)
  \/ exists file data,
       In file files /\ fs !! file = Some data
       /\ e = fst (parseDesktopEntry LANG (GoFilepath.Base file) data).
Proof.
  revert st. induction files as [|f files IH]; intros st He; [left; exact He|].
  cbn [scanFrom fold_left] in He. apply IH in He as [He|(file & data & Hf & Hd & ->)].
  - destruct (scanFile_cases LANG fs st f)
      as [[_ E]|[(_ & _ & E)|(data & _ & Hd & E)]]; rewrite E in He.
    + left. exact He.
    + left. exact He.
    + cbv zeta in He. cbn [entries] in He. apply in_app_iff in He as [He|[<-|[]]].
      * left. exact He.
      * right. exists f, data. repeat split; [left; reflexivity|exact Hd].
  - right. exists file, data. repeat split; [right; exact Hf|exact Hd].
Qed.

End ScanCounts.

Lemma length_filter_visible (l : list desktopEntry) :
  (List.length (List.filter visible l) + List.length (List.filter NoDisplay l)
   = List.length l)%nat.
Proof.
  induction l as [|e l IH]; [reflexivity|]. cbn [List.filter]. unfold visible at 1.
  destruct (NoDisplay e); cbn [negb List.length]; lia.
Qed.

Section IndexCounts.

Variable LANG : string.
Variable sortSlice :
  list desktopEntry -> (desktopEntry -> desktopEntry -> bool) -> list desktopEntry.
Variable ToLower : string -> string.
Variable fs : gmap string string.

Hypothesis sortSlice_perm : forall l less, Permutation l (sortSlice l less).

(** The summary that [parseDesktopFiles] returns shows the number of
    buttons of the query with the empty phrase and the number of entries
    with [NoDisplay]; the logged counts are the size of the index and the
    number of its hidden entries. *)
Theorem summary_counts_visible_and_hidden desktopFiles :
  let r := parseDesktopFiles LANG sortSlice fs desktopFiles in
  let shown := setUpAppsFlowBox ToLower (desktopEntries r) "" in
  let hiddenEntries := List.filter NoDisplay (desktopEntries r) in
  summary r
  = (Itoa (GoSlice.len shown) ++ " entries (+"
       ++ Itoa (GoSlice.len hiddenEntries) ++ " hidden)")%string
  /\ logFound r = GoSlice.len (desktopEntries r)
  /\ logHidden r = GoSlice.len hiddenEntries
  /\ GoSlice.len shown + GoSlice.len hiddenEntries = GoSlice.len (desktopEntries r).
Proof using sortSlice_perm.
  intros r shown hiddenEntries.
  pose proof (sortSlice_perm (entries (scanFiles LANG fs desktopFiles)) lessNameLoc)
    as Hperm.
  assert (hidden (scanFiles LANG fs desktopFiles) = GoSlice.len hiddenEntries) as Hh.
  { unfold hiddenEntries, r, parseDesktopFiles, GoSlice.len. cbn [desktopEntries].
    rewrite <- (Permutation_length (Permutation_filter_list NoDisplay _ _ Hperm)).
    apply (hidden_scanFrom LANG fs (mkScan [] ∅ 0 0) desktopFiles). reflexivity. }
  assert (shown = List.filter visible (desktopEntries r)) as Hs.
  { unfold shown. rewrite setUpAppsFlowBox_filter. apply filter_ext.
    intros e. reflexivity. }
  assert (GoSlice.len shown + GoSlice.len hiddenEntries
          = GoSlice.len (desktopEntries r)) as Hsum.
  { rewrite Hs. unfold hiddenEntries, GoSlice.len.
    pose proof (length_filter_visible (desktopEntries r)). lia. }
  repeat apply conj; [|reflexivity|exact Hh|exact Hsum].
  unfold r, parseDesktopFiles in *. cbn [summary desktopEntries] in *.
  rewrite Hh. do 2 f_equal. lia.
Qed.

(** The index and the count of skipped duplicates never account for more
    files than were listed, and for all of them when every listed file
    opens. *)
Theorem listed_files_are_indexed_or_skipped desktopFiles :
  let r := parseDesktopFiles LANG sortSlice fs desktopFiles in
  logFound r + logSkipped r <= GoSlice.len desktopFiles
  /\ (Forall (fun f => is_Some (fs !! f)) desktopFiles ->
      logFound r + logSkipped r = GoSlice.len desktopFiles).
Proof using sortSlice_perm.
  intros r.
  pose proof (counts_scanFrom LANG fs (mkScan [] ∅ 0 0) desktopFiles) as H.
  cbn zeta in H.
  change (scanFrom LANG fs (mkScan [] ∅ 0 0) desktopFiles)
    with (scanFiles LANG fs desktopFiles) in H.
  assert (logFound r = GoSlice.len (entries (scanFiles LANG fs desktopFiles))) as ->.
  { unfold r, parseDesktopFiles, GoSlice.len. cbn [logFound]. f_equal.
    symmetry. apply Permutation_length, sortSlice_perm. }
  change (logSkipped r) with (skipped (scanFiles LANG fs desktopFiles)).
  cbn [entries skipped] in H. unfold GoSlice.len in *. cbn [List.length] in H.
  destruct H as [H1 H2]. split; [lia|]. intros Hall. specialize (H2 Hall). lia.
Qed.

(** The index holds nothing but descriptors of listed files that open,
    each under the base name of its file. *)
Theorem index_entries_come_from_listed_files desktopFiles e :
  In e (desktopEntries (parseDesktopFiles LANG sortSlice fs desktopFiles)) ->
  exists file data,
    In file desktopFiles /\ fs !! file = Some data
    /\ e = fst (parseDesktopEntry LANG (GoFilepath.Base file) data)
    /\ DesktopID e = GoFilepath.Base file.
Proof using sortSlice_perm.
  intros He. unfold parseDesktopFiles in He. cbn [desktopEntries] in He.
  apply (Permutation_in _ (Permutation_sym (sortSlice_perm _ _))) in He.
  apply (origin_scanFrom LANG fs (mkScan [] ∅ 0 0)) in He
    as [[]|(file & data & Hf & Hd & ->)].
  exists file, data. repeat split; try assumption.
  apply DesktopID_parseDesktopEntry.
Qed.

End IndexCounts.

Lemma summary_counts_visible_and_hidden_witness :
  let r := parseDesktopFiles "en_US.UTF-8" insertionSort exampleFs exampleFiles in
  let shown := setUpAppsFlowBox asciiToLower (desktopEntries r) "" in
  let hiddenEntries := List.filter NoDisplay (desktopEntries r) in
  summary r
  = (Itoa (GoSlice.len shown) ++ " entries (+"
       ++ Itoa (GoSlice.len hiddenEntries) ++ " hidden)")%string
  /\ logFound r = GoSlice.len (desktopEntries r)
  /\ logHidden r = GoSlice.len hiddenEntries
  /\ GoSlice.len shown + GoSlice.len hiddenEntries = GoSlice.len (desktopEntries r).
Proof.
  exact (summary_counts_visible_and_hidden "en_US.UTF-8" insertionSort asciiToLower
           exampleFs insertionSort_perm exampleFiles).
Defined.

Lemma listed_files_are_indexed_or_skipped_witness :
  let r := parseDesktopFiles "en_US.UTF-8" insertionSort exampleFs exampleFiles in
  logFound r + logSkipped r <= GoSlice.len exampleFiles
  /\ logFound r + logSkipped r = GoSlice.len exampleFiles.
Proof.
  intros r.
  destruct (listed_files_are_indexed_or_skipped "en_US.UTF-8" insertionSort
              exampleFs insertionSort_perm exampleFiles) as [H1 H2].
  split; [exact H1|]. apply H2.
  repeat constructor; vm_compute; eauto.
Defined.

Lemma index_entries_come_from_listed_files_witness :
  exists file data,
    In file exampleFiles /\ exampleFs !! file = Some data
    /\ mkEntry "foot.desktop" "Foot" "Foot" "" "" "" "foot" "" false false
       = fst (parseDesktopEntry "en_US.UTF-8" (GoFilepath.Base file) data)
    /\ DesktopID (mkEntry "foot.desktop" "Foot" "Foot" "" "" "" "foot" "" false false)
       = GoFilepath.Base file.
Proof.
  apply (index_entries_come_from_listed_files "en_US.UTF-8" insertionSort
           exampleFs insertionSort_perm exampleFiles).
  vm_compute. left. reflexivity.
Defined.

Lemma prefix_refl s : String.prefix s s = true.
Proof.
  induction s as [|a s IH]; [reflexivity|]. cbn.
  destruct (ascii_dec a a); [exact IH|congruence].
Qed.

Lemma Contains_refl s : GoStrings.Contains s s = true.
Proof.
  unfold GoStrings.Contains, GoStrings.Index.
  destruct s as [|a s]; [reflexivity|].
  cbn [GoStrings.index_from]. rewrite prefix_refl. reflexivity.
Qed.

(** A query only narrows the view: what a phrase returns is a sublist of
    what the empty phrase returns.  Every entry that is not hidden is found
    by its own localized name, and two non-empty phrases that are equal
    once in lower case return the same entries. *)
Theorem query_narrows_and_finds_by_name ToLower (index : list desktopEntry)
  searchPhrase :
  sublist (setUpAppsFlowBox ToLower index searchPhrase)
          (setUpAppsFlowBox ToLower index "")
  /\ (forall e, In e index -> NoDisplay e = false ->
        In e (setUpAppsFlowBox ToLower index (NameLoc e)))
  /\ (forall other,
        searchPhrase <> "" -> other <> "" -> ToLower searchPhrase = ToLower other ->
        setUpAppsFlowBox ToLower index searchPhrase
        = setUpAppsFlowBox ToLower index other).
Proof.
  repeat apply conj.
  - induction index as [|e index IH]; [constructor|].
    cbn [setUpAppsFlowBox].
    change (matchesPhrase ToLower "" e) with true. cbn [negb].
    destruct (matchesPhrase ToLower searchPhrase e), (NoDisplay e); cbn [negb];
      try exact IH.
    + apply sublist_skip, IH.
    + apply sublist_cons, IH.
  - intros e He Hv. rewrite setUpAppsFlowBox_filter. apply filter_In.
    split; [exact He|]. unfold visible, matchesPhrase. rewrite Hv, Contains_refl.
    cbn. rewrite orb_true_r. reflexivity.
  - intros other Hp Ho Heq. rewrite !setUpAppsFlowBox_filter. apply filter_ext.
    intros e. unfold matchesPhrase. rewrite Heq.
    apply String.eqb_neq in Hp, Ho. rewrite Hp, Ho. reflexivity.
Qed.

Lemma query_narrows_and_finds_by_name_witness :
  let index := desktopEntries
                 (parseDesktopFiles "en_US.UTF-8" insertionSort exampleFs exampleFiles) in
  sublist (setUpAppsFlowBox asciiToLower index "VIM")
          (setUpAppsFlowBox asciiToLower index "")
  /\ setUpAppsFlowBox asciiToLower index "VIM" = setUpAppsFlowBox asciiToLower index "vim"
  /\ In (mkEntry "foot.desktop" "Foot" "Foot" "" "" "" "foot" "" false false)
        (setUpAppsFlowBox asciiToLower index "Foot").
Proof.
  intros index.
  destruct (query_narrows_and_finds_by_name asciiToLower index "VIM")
    as (H1 & H2 & H3).
  split; [exact H1|]. split.
  - apply (H3 "vim"); [discriminate|discriminate|reflexivity].
  - apply (H2 (mkEntry "foot.desktop" "Foot" "Foot" "" "" "" "foot" "" false false)).
    + vm_compute. left. reflexivity.
    + reflexivity.
Defined.

(** ** Paths *)

Lemma revString_app a b acc :
  GoStrings.revString (a ++ b)%string acc
  = GoStrings.revString b (GoStrings.revString a acc).
Proof.
  revert acc. induction a as [|x a IH]; intros acc; [reflexivity|].
  rewrite append_String. cbn [GoStrings.revString]. apply IH.
Qed.

Lemma lastElement_revString name rest acc :
  hasByte "/" name = false ->
  GoFilepath.lastElement (GoStrings.revString name rest) acc
  = GoFilepath.lastElement rest (name ++ acc)%string.
Proof.
  revert rest acc. induction name as [|x name IH]; intros rest acc H; [reflexivity|].
  cbn [hasByte] in H. apply orb_false_iff in H as [Hx Hn].
  cbn [GoStrings.revString]. rewrite (IH _ _ Hn). cbn [GoFilepath.lastElement].
  rewrite Ascii.eqb_sym in Hx. rewrite Hx. reflexivity.
Qed.

Lemma stripSlashes_revString name rest :
  hasByte "/" name = false -> name <> "" ->
  GoFilepath.stripSlashes (GoStrings.revString name rest)
  = GoStrings.revString name rest.
Proof.
  revert rest. induction name as [|x name IH]; intros rest H Hne; [congruence|].
  cbn [hasByte] in H. apply orb_false_iff in H as [Hx Hn].
  cbn [GoStrings.revString]. destruct name as [|y name].
  - cbn [GoStrings.revString]. apply Ascii.eqb_neq in Hx.
    destruct x as [[] [] [] [] [] [] [] []]; try reflexivity. congruence.
  - apply IH; [exact Hn|discriminate].
Qed.

(** The base name of a path that ends with a path element. *)
Lemma Base_ends_with dir name :
  name <> "" -> hasByte "/" name = false ->
  dir = "" \/ (exists q, dir = (q ++ "/")%string) ->
  GoFilepath.Base (dir ++ name)%string = name.
Proof.
  intros Hne Hs Hdir. unfold GoFilepath.Base.
  destruct (dir ++ name)%string eqn:E.
  - destruct dir, name; try discriminate; congruence.
  - rewrite <- E. clear E. rewrite revString_app.
    rewrite (stripSlashes_revString _ _ Hs Hne), (lastElement_revString _ _ _ Hs).
    rewrite append_empty_r.
    assert (GoFilepath.lastElement (GoStrings.revString dir "") name = name) as ->.
    { destruct Hdir as [->|[q ->]]; [reflexivity|].
      change (q ++ "/")%string with (q ++ String "/" "")%string.
      rewrite revString_app. reflexivity. }
    destruct name; [congruence|reflexivity].
Qed.

Lemma splitByte_whole sep s : hasByte sep s = false -> splitByte sep s = [s].
Proof.
  induction s as [|a s IH]; [reflexivity|]. cbn [hasByte splitByte].
  intros H. apply orb_false_iff in H as [Ha Hs]. rewrite Ha, (IH Hs). reflexivity.
Qed.

Lemma Join_snoc l t sep :
  GoStrings.Join (l ++ [t]) sep
  = match l with
    | [] => t
    | _ => (GoStrings.Join l sep ++ sep ++ t)%string
    end.
Proof.
  induction l as [|x l IH]; [reflexivity|].
  destruct l as [|y l]; [reflexivity|].
  change ((x :: y :: l) ++ [t])%list with (x :: ((y :: l) ++ [t]))%list.
  change (GoStrings.Join (x :: (y :: l) ++ [t]) sep)
    with (x ++ sep ++ GoStrings.Join ((y :: l) ++ [t]) sep)%string.
  rewrite IH.
  change (GoStrings.Join (x :: y :: l) sep)
    with (x ++ sep ++ GoStrings.Join (y :: l) sep)%string.
  rewrite !append_assoc_string. reflexivity.
Qed.

Lemma cleanElement_real rooted stack name :
  name <> "" -> name <> "." -> name <> ".." ->
  GoFilepath.cleanElement rooted stack name = name :: stack.
Proof.
  intros H1 H2 H3. unfold GoFilepath.cleanElement.
  apply String.eqb_neq in H1, H2, H3. rewrite H1, H2, H3. reflexivity.
Qed.

(** A cleaned path whose last element is [name] ends with [name], after a
    slash or alone. *)
Lemma Clean_ends_with path name :
  name <> "" -> name <> "." -> name <> ".." -> hasByte "/" name = false ->
  path = "" \/ (exists q, path = (q ++ "/")%string) ->
  exists dir,
    GoFilepath.Clean (path ++ name)%string = (dir ++ name)%string
    /\ (dir = "" \/ exists q, dir = (q ++ "/")%string).
Proof.
  intros H1 H2 H3 Hs Hpath.
  assert (exists dirElems,
    GoStrings.Split (path ++ name)%string "/" = (dirElems ++ [name])%list)
    as [dirElems Hsplit].
  { rewrite Split_byte. destruct Hpath as [->|[q ->]].
    - exists []. apply splitByte_whole, Hs.
    - exists (splitByte "/" q).
      change (q ++ "/")%string with (q ++ String "/" "")%string.
      rewrite append_snoc_cons, splitByte_app, (splitByte_whole _ _ Hs).
      reflexivity. }
  unfold GoFilepath.Clean. destruct (path ++ name)%string eqn:E.
  - destruct path, name; try discriminate; congruence.
  - rewrite <- E in *. clear E. rewrite Hsplit, fold_left_app. cbn [fold_left].
    rewrite cleanElement_real by assumption. cbn [rev]. rewrite Join_snoc.
    set (stack := rev (fold_left _ dirElems [])).
    destruct (GoStrings.HasPrefix (path ++ name) "/"), stack as [|x l].
    + exists "/". split; [reflexivity|]. right. exists "". reflexivity.
    + exists ("/" ++ GoStrings.Join (x :: l) "/" ++ "/")%string. split.
      * rewrite !append_assoc_string. reflexivity.
      * right. exists ("/" ++ GoStrings.Join (x :: l) "/")%string.
        rewrite !append_assoc_string. reflexivity.
    + exists "". split; [|left; reflexivity].
      destruct name; [congruence|reflexivity].
    + exists (GoStrings.Join (x :: l) "/" ++ "/")%string. split.
      * rewrite !append_assoc_string.
        destruct (GoStrings.Join (x :: l) "/" ++ "/" ++ name)%string eqn:E;
          [|reflexivity].
        destruct (GoStrings.Join (x :: l) "/"); discriminate.
      * right. eexists. reflexivity.
Qed.

(** The base name of a file joined to a directory is the name of the
    file, for every name a directory can hold. *)
Lemma Base_Join dir name :
  name <> "" -> name <> "." -> name <> ".." -> hasByte "/" name = false ->
  GoFilepath.Base (GoFilepath.Join [dir; name]) = name.
Proof.
  intros H1 H2 H3 Hs. cbn [GoFilepath.Join].
  assert (String.eqb name "" = false) as -> by (apply String.eqb_neq; exact H1).
  destruct (String.eqb_spec dir "") as [->|Hdir].
  - cbn [GoStrings.Join].
    destruct (Clean_ends_with "" name H1 H2 H3 Hs (or_introl eq_refl))
      as (d & Hc & Hd).
    change ("" ++ name)%string with name in Hc. rewrite Hc.
    apply Base_ends_with; assumption.
  - cbn [GoStrings.Join].
    destruct (Clean_ends_with (dir ++ "/") name H1 H2 H3 Hs) as (d & Hc & Hd).
    + right. exists dir. reflexivity.
    + rewrite append_assoc_string in Hc. rewrite Hc.
      apply Base_ends_with; assumption.
Qed.

(** ** The listing of the desktop files *)

(** A file is a candidate exactly when it is called [desktop] or its name
    ends with [.desktop]. *)
Theorem isDesktopFile_iff_desktop_suffix name :
  isDesktopFile name = true
  <-> name = "desktop" \/ exists p, name = (p ++ ".desktop")%string.
Proof.
  unfold isDesktopFile. rewrite Split_byte. split.
  - intros H. apply String.eqb_eq in H.
    destruct (exists_last (splitByte_nonempty "." name)) as (init & t & Hsplit).
    rewrite Hsplit, last_last in H. subst t.
    pose proof (Join_splitByte "." name) as HJ. rewrite Hsplit, Join_snoc in HJ.
    destruct init as [|x init]; [left; congruence|].
    right. exists (GoStrings.Join (x :: init) "."). symmetry. exact HJ.
  - intros [->|[p ->]]; [reflexivity|].
    change (p ++ ".desktop")%string with (p ++ String "." "desktop")%string.
    rewrite splitByte_app. change (splitByte "." "desktop") with ["desktop"].
    rewrite last_last. reflexivity.
Qed.

Lemma isDesktopFile_real name :
  isDesktopFile name = true -> name <> "" /\ name <> "." /\ name <> "..".
Proof. intros H. repeat split; intros ->; discriminate. Qed.

Lemma listDir_spec dir names paths :
  listDir dir names paths
  = (paths ++ map (fun name => GoFilepath.Join [dir; name])
                (List.filter isDesktopFile names))%list.
Proof.
  revert paths. induction names as [|name names IH]; intros paths;
    cbn [listDir List.filter]; [rewrite app_nil_r; reflexivity|].
  destruct (isDesktopFile name); rewrite IH; [|reflexivity].
  rewrite <- app_assoc. reflexivity.
Qed.

Lemma listDirs_spec readDir appDirs paths :
  listDirs readDir appDirs paths
  = (paths ++ flat_map (pathsOf readDir) appDirs)%list.
Proof.
  revert paths. induction appDirs as [|dir appDirs IH]; intros paths;
    cbn [listDirs flat_map]; [rewrite app_nil_r; reflexivity|].
  unfold pathsOf at 1. destruct (readDir dir) as [names|]; rewrite IH.
  - rewrite listDir_spec, <- app_assoc. reflexivity.
  - reflexivity.
Qed.

Lemma listDesktopFiles_spec readDir appDirs :
  listDesktopFiles readDir appDirs = flat_map (pathsOf readDir) appDirs.
Proof. unfold listDesktopFiles. rewrite listDirs_spec. reflexivity. Qed.

(** [listDesktopFiles] returns the candidates of the directories that can
    be listed, each joined to its directory, directory after directory in
    the order given; a directory that cannot be listed adds nothing.  The
    base name of a path it returns is the name of the file in its
    directory. *)
Theorem listDesktopFiles_lists_candidates readDir appDirs :
  (forall dir names,
     readDir dir = Some names -> Forall (fun n => hasByte "/" n = false) names) ->
  (forall path,
     In path (listDesktopFiles readDir appDirs) ->
     exists dir names name,
       In dir appDirs /\ readDir dir = Some names /\ In name names
       /\ isDesktopFile name = true
       /\ path = GoFilepath.Join [dir; name]
       /\ GoFilepath.Base path = name)
  /\ (forall dir names name,
        In dir appDirs -> readDir dir = Some names -> In name names ->
        isDesktopFile name = true ->
        In (GoFilepath.Join [dir; name]) (listDesktopFiles readDir appDirs))
  /\ (forall dirs1 dirs2,
        listDesktopFiles readDir (dirs1 ++ dirs2)
        = (listDesktopFiles readDir dirs1 ++ listDesktopFiles readDir dirs2)%list)
  /\ (forall dir, readDir dir = None -> listDesktopFiles readDir [dir] = []).
Proof.
  intros Hnames. repeat apply conj.
  - intros path Hp. rewrite listDesktopFiles_spec in Hp.
    apply in_flat_map in Hp as (dir & Hdir & Hp). unfold pathsOf in Hp.
    destruct (readDir dir) as [names|] eqn:Hread; [|destruct Hp].
    apply in_map_iff in Hp as (name & <- & Hn). apply filter_In in Hn as [Hn Hd].
    exists dir, names, name. repeat split; try assumption.
    destruct (isDesktopFile_real _ Hd) as (H1 & H2 & H3).
    apply Base_Join; try assumption.
    specialize (Hnames dir names Hread). rewrite List.Forall_forall in Hnames.
    apply Hnames, Hn.
  - intros dir names name Hdir Hread Hn Hd. rewrite listDesktopFiles_spec.
    apply in_flat_map. exists dir. split; [exact Hdir|]. unfold pathsOf.
    rewrite Hread. apply (in_map (fun name => GoFilepath.Join [dir; name])).
    apply filter_In. split; assumption.
  - intros dirs1 dirs2. rewrite !listDesktopFiles_spec. apply flat_map_app.
  - intros dir Hread. rewrite listDesktopFiles_spec. cbn. unfold pathsOf.
    rewrite Hread. reflexivity.
Qed.

Lemma listDesktopFiles_lists_candidates_witness :
  In "/usr/share/applications/foot.desktop"
     (listDesktopFiles exampleReadDir
        ["/home/u/.local/share/applications"; "/usr/local/share/applications";
         "/usr/share/applications"])
  /\ listDesktopFiles exampleReadDir ["/usr/local/share/applications"] = [].
Proof.
  destruct (listDesktopFiles_lists_candidates exampleReadDir
              ["/home/u/.local/share/applications"; "/usr/local/share/applications";
               "/usr/share/applications"]) as (_ & H2 & _ & H4).
  - intros dir names. unfold exampleReadDir.
    destruct (String.eqb dir "/home/u/.local/share/applications");
      [intros [= <-]; repeat constructor|].
    destruct (String.eqb dir "/usr/share/applications");
      [intros [= <-]; repeat constructor|discriminate].
  - split.
    + apply (H2 "/usr/share/applications"
                ["cups.desktop"; "desktop"; "foot.desktop"; "mimeinfo.cache"; "vim.desktop"]
                "foot.desktop").
      * right. right. left. reflexivity.
      * reflexivity.
      * right. right. left. reflexivity.
      * reflexivity.
    + apply H4. reflexivity.
Defined.

Section FirstDirectory.

Variable LANG : string.
Variable sortSlice :
  list desktopEntry -> (desktopEntry -> desktopEntry -> bool) -> list desktopEntry.
Variable fs : gmap string string.

Hypothesis sortSlice_perm : forall l less, Permutation l (sortSlice l less).

Lemma first_opened_is_scanned pre file post data :
  fs !! file = Some data ->
  (forall f, In f pre -> GoFilepath.Base f = GoFilepath.Base file -> fs !! f = None) ->
  In (fst (parseDesktopEntry LANG (GoFilepath.Base file) data))
     (entries (scanFiles LANG fs (pre ++ file :: post))).
Proof.
  intros Hdata Hpre.
  change (scanFiles LANG fs (pre ++ file :: post))
    with (scanFrom LANG fs (mkScan [] ∅ 0 0) (pre ++ file :: post)).
  rewrite scanFrom_app. cbn [scanFrom fold_left].
  apply (scanFrom_entries LANG fs _ post).
  rewrite (scanFile_new LANG fs _ file data);
    [|apply scanFrom_unregistered; [apply lookup_empty|exact Hpre]|exact Hdata].
  cbn [entries]. apply in_app_iff. right. left. reflexivity.
Qed.

Lemma index_ids_NoDup desktopFiles :
  NoDup (ids (desktopEntries (parseDesktopFiles LANG sortSlice fs desktopFiles))).
Proof using sortSlice_perm.
  unfold ids, parseDesktopFiles. cbn [desktopEntries].
  rewrite <- (sortSlice_perm (entries (scanFiles LANG fs desktopFiles)) lessNameLoc).
  apply (scanInv_scanFrom LANG fs _ desktopFiles scanInv_init).
Qed.

(** The first directory has priority: a candidate of the first directory
    that opens is in the index under its name, whatever the later
    directories hold, and no other entry of the index has that identity. *)
Theorem file_of_first_directory_wins readDir dir rest names name data :
  readDir dir = Some names ->
  NoDup names ->
  Forall (fun n => hasByte "/" n = false) names ->
  In name names ->
  isDesktopFile name = true ->
  fs !! GoFilepath.Join [dir; name] = Some data ->
  let r := parseDesktopFiles LANG sortSlice fs
             (listDesktopFiles readDir (dir :: rest)) in
  let entry := fst (parseDesktopEntry LANG name data) in
  In entry (desktopEntries r)
  /\ forall e, In e (desktopEntries r) -> DesktopID e = name -> e = entry.
Proof using sortSlice_perm.
  intros Hread Hnd Hslash Hin Hd Hdata r entry.
  rewrite List.Forall_forall in Hslash.
  assert (forall n, In n names -> isDesktopFile n = true ->
                    GoFilepath.Base (GoFilepath.Join [dir; n]) = n) as HBase.
  { intros n Hn Hdn. destruct (isDesktopFile_real _ Hdn) as (H1 & H2 & H3).
    apply Base_Join; auto. }
  apply in_split in Hin as (n1 & n2 & ->).
  apply NoDup_app in Hnd as (_ & Hfresh & _).
  assert (In entry (desktopEntries r)) as He.
  { unfold r, parseDesktopFiles. cbn [desktopEntries].
    apply (Permutation_in _ (sortSlice_perm _ _)).
    rewrite listDesktopFiles_spec. cbn [flat_map]. unfold pathsOf at 1.
    rewrite Hread, List.filter_app. cbn [List.filter]. rewrite Hd, map_app.
    cbn [map]. rewrite <- app_assoc. cbn [app]. unfold entry.
    rewrite <- (HBase name) at 1 by (try (apply in_app_iff; right; left); auto).
    apply first_opened_is_scanned; [exact Hdata|].
    intros f Hf Heq. exfalso.
    apply in_map_iff in Hf as (n & <- & Hn). apply filter_In in Hn as [Hn Hdn].
    rewrite !HBase in Heq
      by (try (apply in_app_iff; first [left; assumption | right; left; reflexivity]);
          assumption).
    subst n. apply (Hfresh name); [apply list_elem_of_In; exact Hn|].
    apply list_elem_of_In. left. reflexivity. }
  split; [exact He|]. intros e Hin HID.
  apply (NoDup_map_In_eq DesktopID (desktopEntries r)); try assumption.
  - apply index_ids_NoDup.
  - rewrite HID. symmetry. apply DesktopID_parseDesktopEntry.
Qed.

End FirstDirectory.

Lemma file_of_first_directory_wins_witness :
  let r := parseDesktopFiles "en_US.UTF-8" insertionSort exampleFs
             (listDesktopFiles exampleReadDir
                ["/home/u/.local/share/applications"; "/usr/share/applications"]) in
  let entry := mkEntry "vim.desktop" "Vim" "Vim" "" "" "" "vim %F" "" true false in
  In entry (desktopEntries r)
  /\ forall e, In e (desktopEntries r) -> DesktopID e = "vim.desktop" -> e = entry.
Proof.
  apply (file_of_first_directory_wins "en_US.UTF-8" insertionSort exampleFs
           insertionSort_perm exampleReadDir "/home/u/.local/share/applications"
           ["/usr/share/applications"] ["README"; "vim.desktop"] "vim.desktop"
           (unlines ["[Desktop Entry]"; "Name=Vim"; "Exec=vim %F"; "Terminal=true"])).
  - reflexivity.
  - apply NoDup_ListNoDup. repeat constructor; cbn; intuition discriminate.
  - repeat constructor.
  - right. left. reflexivity.
  - reflexivity.
  - reflexivity.
Defined.

(** ** The environment *)





(** [tempDir] never returns the empty string: it is the first of [TMPDIR],
    [TEMP] and [TMP] that is set and not empty, and [/tmp] otherwise.  The
    lock file is called [wlaunchpad.lock] in every environment. *)
Theorem lock_file_is_named_in_temp_dir env :
  tempDir env <> ""
  /\ (Getenv env "TMPDIR" <> "" -> tempDir env = Getenv env "TMPDIR")
  /\ (Getenv env "TMPDIR" = "" -> Getenv env "TEMP" = "" -> Getenv env "TMP" = "" ->
      tempDir env = "/tmp" /\ lockFilePath env = "/tmp/wlaunchpad.lock")
  /\ GoFilepath.Base (lockFilePath env) = "wlaunchpad.lock".
Proof.
  repeat apply conj.
  - unfold tempDir.
    destruct (String.eqb_spec (Getenv env "TMPDIR") ""); cbn [negb]; [|assumption].
    destruct (String.eqb_spec (Getenv env "TEMP") ""); cbn [negb]; [|assumption].
    destruct (String.eqb_spec (Getenv env "TMP") ""); cbn [negb]; [|assumption].
    discriminate.
  - intros H. unfold tempDir. apply String.eqb_neq in H. rewrite H. reflexivity.
  - intros H1 H2 H3. unfold lockFilePath, tempDir. rewrite H1, H2, H3.
    split; vm_compute; reflexivity.
  - unfold lockFilePath. apply Base_Join; [discriminate..|reflexivity].
Qed.

Lemma lock_file_is_named_in_temp_dir_witness :
  tempDir (<["TMPDIR" := "/run/user/1000/"]> ∅) = "/run/user/1000/"
  /\ lockFilePath ∅ = "/tmp/wlaunchpad.lock".
Proof.
  split.
  - destruct (lock_file_is_named_in_temp_dir (<["TMPDIR" := "/run/user/1000/"]> ∅))
      as (_ & H & _).
    apply H. vm_compute. discriminate.
  - destruct (lock_file_is_named_in_temp_dir ∅) as (_ & _ & H & _).
    apply H; reflexivity.
Defined.

(** The terminal emulator has a usable default: [defaultStringIfBlank]
    returns the trimmed string unless that is empty or [linux], and the
    fallback then; with a fallback that is neither, and so for the flag
    [-t], the result is never empty and never [linux]. *)
Theorem defaultStringIfBlank_is_never_blank s fallback :
  (defaultStringIfBlank s fallback = fallback
   \/ defaultStringIfBlank s fallback = GoStrings.TrimSpace s)
  /\ (fallback <> "" -> fallback <> "linux" ->
      defaultStringIfBlank s fallback <> ""
      /\ defaultStringIfBlank s fallback <> "linux")
  /\ (forall env, defaultTerm env <> "" /\ defaultTerm env <> "linux").
Proof.
  assert (forall t f, f <> "" -> f <> "linux" ->
            defaultStringIfBlank t f <> "" /\ defaultStringIfBlank t f <> "linux") as H.
  { intros t f H1 H2. unfold defaultStringIfBlank.
    destruct (String.eqb_spec (GoStrings.TrimSpace t) ""); cbn [orb]; [auto|].
    destruct (String.eqb_spec (GoStrings.TrimSpace t) "linux"); auto. }
  repeat apply conj.
  - unfold defaultStringIfBlank.
    destruct (String.eqb (GoStrings.TrimSpace s) "" || String.eqb (GoStrings.TrimSpace s) "linux");
      auto.
  - apply H.
  - intros env. apply H; discriminate.
Qed.

Lemma defaultStringIfBlank_is_never_blank_witness :
  defaultStringIfBlank " linux " "foot" <> ""
  /\ defaultStringIfBlank " linux " "foot" <> "linux".
Proof.
  destruct (defaultStringIfBlank_is_never_blank " linux " "foot") as (_ & H & _).
  apply H; discriminate.
Defined.

(** ** Icons *)

Lemma HasSuffix_app s suffix : GoStrings.HasSuffix (s ++ suffix) suffix = true.
Proof.
  unfold GoStrings.HasSuffix. rewrite string_length_app.
  replace (String.length s + String.length suffix - String.length suffix)%nat
    with (String.length s) by lia.
  rewrite substring_skip_app, substring_all, String.eqb_refl.
  apply andb_true_iff. split; [|reflexivity]. apply Nat.leb_le. lia.
Qed.

Lemma hd_splitByte_no_byte c sep s :
  c <> sep -> hasByte c s = false -> hasByte c (hd "" (splitByte sep s)) = false.
Proof.
  intros Hne Hs. rewrite (hasByte_splitByte c sep) in Hs by exact Hne.
  destruct (splitByte sep s) as [|t ts]; [reflexivity|].
  cbn in Hs. apply orb_false_iff in Hs as [Ht _]. exact Ht.
Qed.

Lemma HasPrefix_byte_hasByte c s :
  GoStrings.HasPrefix s (String c EmptyString) = true -> hasByte c s = true.
Proof.
  unfold GoStrings.HasPrefix. rewrite prefix_byte. destruct s as [|a s]; [discriminate|].
  intros H. cbn [hasByte]. rewrite H. reflexivity.
Qed.

(** The name looked up in the icon theme for an icon with one of the three
    suffixes is the text before its first dot, not before its last one: an
    icon name with inner dots loses everything from the first dot on.  Any
    other icon name is looked up as it is. *)
Theorem themeIconName_cuts_at_first_dot :
  (forall a rest,
     hasByte "." a = false ->
     (GoStrings.HasSuffix (a ++ "." ++ rest) ".svg"
      || GoStrings.HasSuffix (a ++ "." ++ rest) ".png"
      || GoStrings.HasSuffix (a ++ "." ++ rest) ".xpm") = true ->
     themeIconName (a ++ "." ++ rest) = a)
  /\ (forall a b ext,
        hasByte "." a = false -> In ext [".svg"; ".png"; ".xpm"] ->
        themeIconName (a ++ "." ++ b ++ ext) = a)
  /\ (forall icon,
        GoStrings.HasSuffix icon ".svg" = false ->
        GoStrings.HasSuffix icon ".png" = false ->
        GoStrings.HasSuffix icon ".xpm" = false ->
        themeIconName icon = icon).
Proof.
  assert (forall a rest, hasByte "." a = false ->
            hd "" (GoStrings.Split (a ++ "." ++ rest) ".") = a) as Hhd.
  { intros a rest Ha. rewrite Split_byte.
    change ("." ++ rest)%string with (String "." rest).
    rewrite splitByte_app, (splitByte_whole _ _ Ha). reflexivity. }
  repeat apply conj.
  - intros a rest Ha Hs. unfold themeIconName. rewrite Hs. apply Hhd, Ha.
  - intros a b ext Ha Hext. unfold themeIconName.
    assert ((GoStrings.HasSuffix (a ++ "." ++ b ++ ext) ".svg"
             || GoStrings.HasSuffix (a ++ "." ++ b ++ ext) ".png"
             || GoStrings.HasSuffix (a ++ "." ++ b ++ ext) ".xpm") = true) as ->.
    { rewrite <- !append_assoc_string.
      destruct Hext as [<-|[<-|[<-|[]]]]; rewrite HasSuffix_app;
        rewrite ?orb_true_r; reflexivity. }
    apply Hhd, Ha.
  - intros icon H1 H2 H3. unfold themeIconName. rewrite H1, H2, H3. reflexivity.
Qed.

Lemma themeIconName_cuts_at_first_dot_witness :
  themeIconName "org.gnome.Nautilus.svg" = "org"
  /\ themeIconName "netflix-desktop.png" = "netflix-desktop"
  /\ themeIconName "org.gnome.Nautilus" = "org.gnome.Nautilus".
Proof.
  destruct themeIconName_cuts_at_first_dot as (H1 & H2 & H3).
  split; [|split].
  - exact (H2 "org" "gnome.Nautilus" ".svg" eq_refl (or_introl eq_refl)).
  - exact (H1 "netflix-desktop" "png" eq_refl eq_refl).
  - exact (H3 "org.gnome.Nautilus" eq_refl eq_refl eq_refl).
Defined.

Section IconFacts.

Variable Pixbuf : Type.

Lemma themeIconName_no_slash icon :
  hasByte "/" icon = false ->
  GoStrings.HasPrefix (themeIconName icon) "/" = false.
Proof.
  intros H. destruct (GoStrings.HasPrefix (themeIconName icon) "/") eqn:E;
    [|reflexivity].
  apply HasPrefix_byte_hasByte in E. unfold themeIconName in E.
  destruct (_ || _) in E; [|congruence].
  rewrite Split_byte, hd_splitByte_no_byte in E; [discriminate|discriminate|exact H].
Qed.

Lemma createPixbuf_pixbuf_or_error
  (fromFile loadIcon : string -> Pixbuf + error) icon :
  fst (createPixbuf Pixbuf fromFile loadIcon icon) = None
  <-> snd (createPixbuf Pixbuf fromFile loadIcon icon) <> None.
Proof.
  unfold createPixbuf.
  destruct (GoStrings.Contains icon "/").
  - destruct (fromFile icon); cbn [fst snd]; intuition congruence.
  - destruct (loadIcon (themeIconName icon));
      [cbn [fst snd]; intuition congruence|].
    destruct (GoStrings.HasPrefix (themeIconName icon) "/").
    + destruct (fromFile (themeIconName icon)); cbn [fst snd];
        intuition congruence.
    + cbn [fst snd]; intuition congruence.
Qed.

(** [createPixbuf] returns a pixbuf or an error, never both and never
    neither.  An icon with a slash is loaded from its file and the icon
    theme plays no part; an icon without slash is looked up in the theme
    under its theme name and no file is read: the branch that loads a file
    after a failed lookup is never taken. *)
Theorem createPixbuf_file_or_theme
  (fromFile loadIcon : string -> Pixbuf + error) icon :
  (fst (createPixbuf Pixbuf fromFile loadIcon icon) = None
   <-> snd (createPixbuf Pixbuf fromFile loadIcon icon) <> None)
  /\ (GoStrings.Contains icon "/" = true ->
      forall otherTheme,
        createPixbuf Pixbuf fromFile otherTheme icon
        = createPixbuf Pixbuf fromFile loadIcon icon)
  /\ (GoStrings.Contains icon "/" = false ->
      forall otherFiles,
        createPixbuf Pixbuf otherFiles loadIcon icon
        = createPixbuf Pixbuf fromFile loadIcon icon
        /\ createPixbuf Pixbuf fromFile loadIcon icon
           = match loadIcon (themeIconName icon) with
             | inl pixbuf => (Some pixbuf, None)
             | inr err => (None, Some err)
             end).
Proof.
  split; [|split].
  - apply createPixbuf_pixbuf_or_error.
  - intros H otherTheme. unfold createPixbuf. rewrite H. reflexivity.
  - intros H otherFiles. unfold createPixbuf. rewrite H.
    rewrite Contains_hasByte in H. rewrite (themeIconName_no_slash _ H).
    split; destruct (loadIcon (themeIconName icon)); reflexivity.
Qed.

(** The icon cache: the pixbuf of a button is stored under the icon name
    and the other names keep theirs; once stored it is returned without
    any loading, whatever the files and the theme have become.  An entry
    without icon gets no pixbuf, and an entry with an icon gets none only
    when the icon, [image-missing] and [unknown] all fail to load. *)
Theorem buttonPixbuf_caches_fallback_chain
  (fromFile loadIcon : string -> Pixbuf + error)
  (iconCache : gmap string (option Pixbuf)) icon :
  let create := createPixbuf Pixbuf fromFile loadIcon in
  let '(pixbuf, cache') := buttonPixbuf Pixbuf fromFile loadIcon iconCache icon in
  cache' !! icon = Some pixbuf
  /\ (forall other, other <> icon -> cache' !! other = iconCache !! other)
  /\ (forall fromFile' loadIcon',
        buttonPixbuf Pixbuf fromFile' loadIcon' cache' icon = (pixbuf, cache'))
  /\ (iconCache !! icon = None -> icon = "" -> pixbuf = None)
  /\ (iconCache !! icon = None -> icon <> "" ->
      (pixbuf = None <->
       fst (create icon) = None /\ fst (create "image-missing") = None
       /\ fst (create "unknown") = None)).
Proof.
  intros create.
  pose proof (createPixbuf_pixbuf_or_error fromFile loadIcon) as Hone.
  fold create in Hone.
  unfold buttonPixbuf at 1. fold create.
  destruct (iconCache !! icon) as [cached|] eqn:Hc.
  - split; [exact Hc|]. split; [reflexivity|].
    split; [intros; unfold buttonPixbuf; rewrite Hc; reflexivity|].
    split; congruence.
  - assert (forall pixbuf : option Pixbuf,
              <[icon:=pixbuf]> iconCache !! icon = Some pixbuf
              /\ (forall other, other <> icon ->
                     <[icon:=pixbuf]> iconCache !! other = iconCache !! other)
              /\ (forall fromFile' loadIcon',
                     buttonPixbuf Pixbuf fromFile' loadIcon'
                       (<[icon:=pixbuf]> iconCache) icon
                     = (pixbuf, <[icon:=pixbuf]> iconCache))) as Hcache.
    { intros pixbuf. split; [apply lookup_insert_eq|]. split.
      - intros other Hne. apply lookup_insert_ne. congruence.
      - intros. unfold buttonPixbuf. rewrite lookup_insert_eq. reflexivity. }
    destruct (String.eqb_spec icon "") as [->|Hicon]; cbn [negb].
    + destruct (Hcache None) as (C1 & C2 & C3).
      split; [exact C1|]. split; [exact C2|]. split; [exact C3|].
      split; [reflexivity|congruence].
    + destruct (create icon) as [p1 e1] eqn:H1.
      pose proof (Hone icon) as Hi. rewrite H1 in Hi. cbn [fst snd] in Hi.
      destruct e1 as [e1|].
      * assert (p1 = None) as -> by (apply Hi; discriminate).
        destruct (create "image-missing") as [p2 e2] eqn:H2.
        pose proof (Hone "image-missing") as Hm. rewrite H2 in Hm.
        cbn [fst snd] in Hm.
        destruct e2 as [e2|].
        -- assert (p2 = None) as -> by (apply Hm; discriminate).
           destruct (Hcache (fst (create "unknown"))) as (C1 & C2 & C3).
           split; [exact C1|]. split; [exact C2|]. split; [exact C3|].
           split; [congruence|]. intros _ _. cbn [fst]. tauto.
        -- destruct p2 as [p2|];
             [|exfalso; destruct Hm as [Hm _]; apply Hm; reflexivity].
           destruct (Hcache (Some p2)) as (C1 & C2 & C3).
           split; [exact C1|]. split; [exact C2|]. split; [exact C3|].
           split; [congruence|]. intros _ _. cbn [fst].
           split; [discriminate|]. intros (_ & ? & _). discriminate.
      * destruct p1 as [p1|];
          [|exfalso; destruct Hi as [Hi _]; apply Hi; reflexivity].
        destruct (Hcache (Some p1)) as (C1 & C2 & C3).
        split; [exact C1|]. split; [exact C2|]. split; [exact C3|].
        split; [congruence|]. intros _ _. cbn [fst].
        split; [discriminate|]. intros (? & _). discriminate.
Qed.

End IconFacts.

Lemma createPixbuf_file_or_theme_witness :
  createPixbuf string exampleImages (fun _ => inr (Err "no theme"))
    "/usr/share/pixmaps/foot.png"
  = createPixbuf string exampleImages exampleTheme "/usr/share/pixmaps/foot.png"
  /\ createPixbuf string exampleImages exampleTheme "vim.svg"
     = (Some "theme:vim", None).
Proof.
  split.
  - destruct (createPixbuf_file_or_theme string exampleImages exampleTheme
                "/usr/share/pixmaps/foot.png") as (_ & H & _).
    apply H. reflexivity.
  - destruct (createPixbuf_file_or_theme string exampleImages exampleTheme "vim.svg")
      as (_ & _ & H).
    destruct (H eq_refl exampleImages) as [_ ->]. reflexivity.
Defined.

Lemma buttonPixbuf_caches_fallback_chain_witness :
  fst (buttonPixbuf string exampleImages exampleTheme ∅ "") = None
  /\ fst (buttonPixbuf string exampleImages exampleTheme ∅ "gimp")
     = Some "theme:unknown".
Proof.
  split.
  - pose proof (buttonPixbuf_caches_fallback_chain string exampleImages exampleTheme
                  ∅ "") as H.
    cbv zeta in H.
    destruct (buttonPixbuf string exampleImages exampleTheme ∅ "") as [p c].
    destruct H as (_ & _ & _ & H & _). apply H; reflexivity.
  - pose proof (buttonPixbuf_caches_fallback_chain string exampleImages exampleTheme
                  ∅ "gimp") as H.
    cbv zeta in H.
    destruct (buttonPixbuf string exampleImages exampleTheme ∅ "gimp") as [p c] eqn:E.
    destruct H as (_ & _ & _ & _ & H). cbn [fst].
    destruct p as [p|].
    + vm_compute in E. congruence.
    + exfalso. destruct (H eq_refl ltac:(discriminate)) as [H' _].
      destruct (H' eq_refl) as (_ & _ & Hu). vm_compute in Hu. discriminate.
Defined.

(** ** The owner of the lock *)

Lemma digits_step c s n k :
  Z.of_nat (nat_of_ascii c) - 48 = k -> 0 <= k <= 9 ->
  GoStrconv.digits (String c s) n = GoStrconv.digits s (n * 10 + k).
Proof.
  intros Hk Hr. cbn [GoStrconv.digits]. rewrite Hk.
  Ztrue (0 <=? k). Ztrue (k <=? 9). reflexivity.
Qed.

(** One decimal digit [k] of [Decimal.uint], read by [digits]. *)
Ltac digit k := rewrite (digits_step _ _ _ k) by (try reflexivity; lia).

Lemma digits_of_uint_acc d acc :
  GoStrconv.digits (NilEmpty.string_of_uint d) (Z.pos acc)
  = Some (Z.pos (Pos.of_uint_acc d acc)).
Proof.
  revert acc. induction d as [|d IH|d IH|d IH|d IH|d IH|d IH|d IH|d IH|d IH|d IH];
    intros acc; cbn [NilEmpty.string_of_uint Pos.of_uint_acc]; [reflexivity|..];
    [digit 0|digit 1|digit 2|digit 3|digit 4|digit 5|digit 6|digit 7|digit 8|digit 9];
    rewrite <- IH; f_equal; lia.
Qed.

Lemma digits_of_uint d :
  GoStrconv.digits (NilEmpty.string_of_uint d) 0 = Some (Z.of_N (Pos.of_uint d)).
Proof.
  induction d as [|d IH|d IH|d IH|d IH|d IH|d IH|d IH|d IH|d IH|d IH];
    cbn [NilEmpty.string_of_uint Pos.of_uint]; [reflexivity|..];
    [digit 0|digit 1|digit 2|digit 3|digit 4|digit 5|digit 6|digit 7|digit 8|digit 9];
    first [exact IH | apply digits_of_uint_acc].
Qed.

Lemma Atoi_of_digits s un :
  match s with
  | String c _ => negb (Ascii.eqb c "-") && negb (Ascii.eqb c "+")
  | EmptyString => false
  end = true ->
  GoStrconv.digits s 0 = Some un ->
  GoStrconv.minInt <= un <= GoStrconv.maxInt ->
  GoStrconv.Atoi s = (un, None).
Proof.
  intros Hsign Hd Hr. destruct s as [|c s]; [discriminate|].
  unfold GoStrconv.Atoi.
  assert ((let '(neg, body) :=
             match String c s with
             | String "-" s' => (true, s')
             | String "+" s' => (false, s')
             | _ => (false, String c s)
             end in (neg, body)) = (false, String c s)) as Hm.
  { destruct c as [[] [] [] [] [] [] [] []]; try reflexivity; discriminate. }
  destruct (match String c s with
            | String "-" s' => (true, s')
            | String "+" s' => (false, s')
            | _ => (false, String c s)
            end) as [neg body].
  injection Hm as -> ->. rewrite Hd.
  Zfalse (un <? GoStrconv.minInt). Zfalse (GoStrconv.maxInt <? un). reflexivity.
Qed.

Lemma Atoi_of_minus_digits s un :
  s <> "" ->
  GoStrconv.digits s 0 = Some un ->
  GoStrconv.minInt <= - un <= GoStrconv.maxInt ->
  GoStrconv.Atoi (String "-" s) = (- un, None).
Proof.
  intros Hne Hd Hr. unfold GoStrconv.Atoi. cbn match.
  destruct s as [|c s]; [congruence|]. rewrite Hd.
  Zfalse (- un <? GoStrconv.minInt). Zfalse (GoStrconv.maxInt <? - un). reflexivity.
Qed.

Lemma Itoa_pos p : Itoa (Z.pos p) = NilEmpty.string_of_uint (Pos.to_uint p).
Proof.
  unfold Itoa. cbn [Z.to_int NilZero.string_of_int]. unfold NilZero.string_of_uint.
  pose proof (DecimalPos.Unsigned.to_uint_nonnil p).
  destruct (Pos.to_uint p); [congruence|reflexivity..].
Qed.

Lemma digits_to_uint p :
  GoStrconv.digits (NilEmpty.string_of_uint (Pos.to_uint p)) 0 = Some (Z.pos p).
Proof. rewrite digits_of_uint, DecimalPos.Unsigned.of_to. reflexivity. Qed.

(** What [strconv.Itoa] prints, [strconv.Atoi] reads back, for every
    [int]. *)
Lemma Atoi_Itoa n :
  GoStrconv.minInt <= n <= GoStrconv.maxInt -> GoStrconv.Atoi (Itoa n) = (n, None).
Proof.
  intros Hr. destruct n as [|p|p].
  - reflexivity.
  - rewrite Itoa_pos. apply Atoi_of_digits; [|apply digits_to_uint|exact Hr].
    pose proof (DecimalPos.Unsigned.to_uint_nonnil p).
    destruct (Pos.to_uint p); [congruence|reflexivity..].
  - assert (Itoa (Z.neg p) = String "-" (NilEmpty.string_of_uint (Pos.to_uint p))) as ->.
    { unfold Itoa. cbn [Z.to_int NilZero.string_of_int]. f_equal.
      unfold NilZero.string_of_uint.
      pose proof (DecimalPos.Unsigned.to_uint_nonnil p).
      destruct (Pos.to_uint p); [congruence|reflexivity..]. }
    change (Z.neg p) with (- Z.pos p).
    apply Atoi_of_minus_digits; [|apply digits_to_uint|exact Hr].
    pose proof (DecimalPos.Unsigned.to_uint_nonnil p).
    destruct (Pos.to_uint p); [congruence|discriminate..].
Qed.

(** The pid that the owner wrote to the lock file is the pid that a second
    instance reads from it: whatever [int] the pid of the owner is, the
    second instance sends [SIGUSR1] to exactly that pid and exits with
    status 0.  On that signal an owner in daemon mode hides its window when
    it is visible and shows it when it is not, and an owner that is not in
    daemon mode quits. *)
Theorem second_instance_signals_the_owner pid k :
  GoStrconv.minInt <= pid <= GoStrconv.maxInt ->
  getLockFilePid (heldBy pid k) = (pid, None)
  /\ acquireOrRelay (heldBy pid k) = ([Kill pid SIGUSR1], Exit 0)
  /\ (forall daemon visible,
        map (fun c => match c with Kill _ s => onSignal daemon visible s end)
            (fst (acquireOrRelay (heldBy pid k)))
        = [if daemon then (if visible then HideWindow else ShowWindow) else Quit]).
Proof.
  intros Hr.
  assert (getLockFilePid (heldBy pid k) = (pid, None)) as Hpid
    by (unfold getLockFilePid, heldBy, lockFileContents; cbn [readFile];
        apply Atoi_Itoa, Hr).
  assert (acquireOrRelay (heldBy pid k) = ([Kill pid SIGUSR1], Exit 0)) as Hrelay.
  { unfold acquireOrRelay. rewrite Hpid. reflexivity. }
  split; [exact Hpid|]. split; [exact Hrelay|].
  intros daemon visible. rewrite Hrelay. destruct daemon, visible; reflexivity.
Qed.

Lemma second_instance_signals_the_owner_witness :
  getLockFilePid (heldBy 4711 (fun _ _ => None)) = (4711, None)
  /\ acquireOrRelay (heldBy 4711 (fun _ _ => None)) = ([Kill 4711 SIGUSR1], Exit 0).
Proof.
  destruct (second_instance_signals_the_owner 4711 (fun _ _ => None)) as (H1 & H2 & _).
  - vm_compute. split; discriminate.
  - split; assumption.
Defined.

(** ** The locale *)

Lemma hd_splitByte_app sep a b :
  hasByte sep a = false ->
  hd "" (splitByte sep (a ++ b)) = (a ++ hd "" (splitByte sep b))%string.
Proof.
  induction a as [|x a IH]; intros H; [reflexivity|].
  cbn [hasByte] in H. apply orb_false_iff in H as [Hx Ha].
  rewrite !append_String. cbn [splitByte]. rewrite Hx.
  specialize (IH Ha). destruct (splitByte sep (a ++ b)) as [|t ts].
  - cbn in IH. cbn. rewrite <- IH. reflexivity.
  - cbn in IH. cbn. rewrite IH. reflexivity.
Qed.

Lemma eqb_app_cancel l a b :
  String.eqb (l ++ a) (l ++ b) = String.eqb a b.
Proof.
  induction l as [|x l IH]; [reflexivity|].
  rewrite !append_String. cbn [String.eqb]. rewrite Ascii.eqb_refl. exact IH.
Qed.

Lemma primary_subtag l rest :
  hasByte "_" l = false -> hasByte "." l = false ->
  hd "" (GoStrings.Split (lang (l ++ "_" ++ rest)) "_") = l.
Proof.
  intros H_ Hdot. unfold lang. rewrite !Split_byte.
  rewrite (hd_splitByte_app "." l _ Hdot).
  change ("_" ++ rest)%string with (String "_" rest). cbn [splitByte].
  change (Ascii.eqb "." "_") with false. cbv iota.
  destruct (splitByte "." rest) as [|t ts]; cbn [hd];
    rewrite splitByte_app, (splitByte_whole _ _ H_); reflexivity.
Qed.

(** Only the primary subtag of [LANG] makes the localized keys: with
    [LANG] a language, an underscore and anything after it (a region, an
    encoding), the keys are [Name[language]] and [Comment[language]], and a
    line with the region-qualified key [Name[language_REGION]] is ignored
    like a key that is not known. *)
Theorem locale_keys_use_primary_subtag l rest :
  hasByte "_" l = false -> hasByte "." l = false ->
  let LANG := (l ++ "_" ++ rest)%string in
  localizedName LANG = ("Name[" ++ l ++ "]")%string
  /\ localizedComment LANG = ("Comment[" ++ l ++ "]")%string
  /\ (forall region value entry,
        setKey LANG ("Name[" ++ l ++ "_" ++ region ++ "]") value entry = entry).
Proof.
  intros H_ Hdot LANG.
  assert (localizedName LANG = ("Name[" ++ l ++ "]")%string) as HN
    by (unfold localizedName, LANG; rewrite (primary_subtag _ _ H_ Hdot); reflexivity).
  assert (localizedComment LANG = ("Comment[" ++ l ++ "]")%string) as HC
    by (unfold localizedComment, LANG; rewrite (primary_subtag _ _ H_ Hdot);
        reflexivity).
  split; [exact HN|]. split; [exact HC|].
  intros region value entry. unfold setKey. rewrite HN, HC.
  change ("Name[" ++ l ++ "_" ++ region ++ "]")%string
    with ("Name[" ++ (l ++ "_" ++ region ++ "]"))%string.
  change ("Name[" ++ l ++ "]")%string with ("Name[" ++ (l ++ "]"))%string.
  rewrite (eqb_app_cancel "Name["), (eqb_app_cancel l). reflexivity.
Qed.

Lemma locale_keys_use_primary_subtag_witness :
  localizedName "pt_BR.UTF-8" = "Name[pt]"
  /\ localizedComment "pt_BR.UTF-8" = "Comment[pt]"
  /\ (forall region value entry,
        setKey "pt_BR.UTF-8" ("Name[" ++ "pt" ++ "_" ++ region ++ "]") value entry
        = entry).
Proof.
  exact (locale_keys_use_primary_subtag "pt" "BR.UTF-8" eq_refl eq_refl).
Defined.
